(** * sdk-go: the metric record (package [runtime]) and the synchronization
      client (package [sync])

    A shallow embedding of [runtime/metrics_types.go] and of the client
    constructor, connection provisioner and [Close] of the sync package,
    with the properties the specification states about them. *)

From Stdlib Require Import ZArith QArith Lia Ascii String DecimalString DecimalPos.
From stdpp Require Import base option list gmap strings.

Local Open Scope Z_scope.

(** ** Go runtime outcomes shared by both packages *)

(** What a Go panic carries, for the panics this code can raise. *)
Inductive panic : Type :=
| PanicIndexOutOfRange (idx : Z) (len : Z)  (* runtime error: index out of range *)
| PanicNilMap                               (* assignment to entry in nil map *)
| PanicNegativeWaitGroup                    (* sync: negative WaitGroup counter *)
| PanicValue (msg : string).                (* panic("...") *)

Inductive result (A : Type) : Type :=
| Ok (a : A)
| Panic (p : panic).
Arguments Ok {A} a.
Arguments Panic {A} p.

Definition rbind {A B} (r : result A) (k : A -> result B) : result B :=
  match r with
  | Ok a => k a
  | Panic p => Panic p
  end.

#[global] Instance result_ret : MRet result := fun _ a => Ok a.
#[global] Instance result_bind : MBind result := fun _ _ k r => rbind r k.

Definition is_panic {A} (r : result A) : bool :=
  match r with Ok _ => false | Panic _ => true end.

(** [arr[i]] on an array or slice: a runtime bounds check, then the element. *)
Definition index {A} (arr : list A) (i : Z) : result A :=
  if (i <? 0) || (Z.of_nat (length arr) <=? i)
  then Panic (PanicIndexOutOfRange i (Z.of_nat (length arr)))
  else match arr !! Z.to_nat i with
       | Some x => Ok x
       | None => Panic (PanicIndexOutOfRange i (Z.of_nat (length arr)))
       end.

Module Runtime.

(** [type MetricType int] with its seven [iota] constants. *)
Definition MetricType : Type := Z.

Definition MetricPoint : MetricType := 0.
Definition MetricCounter : MetricType := 1.
Definition MetricEWMA : MetricType := 2.
Definition MetricGauge : MetricType := 3.
Definition MetricHistogram : MetricType := 4.
Definition MetricMeter : MetricType := 5.
Definition MetricTimer : MetricType := 6.

Definition metricTypeNames : list string :=
  ["point"; "counter"; "ewma"; "gauge"; "histogram"; "meter"; "timer"]%string.

(** [func (mt MetricType) String() string]: the array literal indexed by
    the receiver. *)
Definition String (mt : MetricType) : result string :=
  index metricTypeNames mt.

(** [Metric.Type] is spelled [Type_]: the source's name is a keyword here. *)
Section Metrics.

(** Go's [float64] stays abstract: the code only stores such values,
    converts [int64] readings to them and writes six literals. *)
Variable float64 : Type.
Variable float64_of_int64 : Z -> float64.
Variable float64_const : Q -> float64.

(** What [Measures] holds behind [interface{}]. *)
Inductive measure : Type :=
| MPoint (v : float64)
| MInt64 (n : Z)
| MFloat64 (x : float64).

Record Metric : Type := mkMetric {
  Timestamp : Z;
  Type_ : MetricType;
  Name : string;
  Measures : option (gmap string measure)  (* [None] is the nil map *)
}.

(** Modelled from the spec: the metric interfaces and [Point] are declared
    in files of package [runtime] outside [metrics_types.go]; the spec only
    calls the metric record a plain data-transfer object.  Each interface
    is given by the methods [NewMetric] calls on it, [Snapshot] first, with
    [int64] readings as [Z].  [Percentiles] answers one value for each
    percentile asked for. *)
Record CounterSnapshot : Type := { Counter_Count : Z }.
Record Counter : Type := { Counter_Snapshot : CounterSnapshot }.

Record EWMASnapshot : Type := { EWMA_Rate : float64 }.
Record EWMA : Type := { EWMA_Snapshot : EWMASnapshot }.

Record GaugeSnapshot : Type := { Gauge_Value : Z }.
Record Gauge : Type := { Gauge_Snapshot : GaugeSnapshot }.

Record HistogramSnapshot : Type := {
  Histogram_Count : Z;
  Histogram_Max : Z;
  Histogram_Mean : float64;
  Histogram_Min : Z;
  Histogram_StdDev : float64;
  Histogram_Variance : float64;
  Histogram_Percentiles : list float64 -> list float64;
  Histogram_Percentiles_length :
    forall ps, length (Histogram_Percentiles ps) = length ps
}.
Record Histogram : Type := { Histogram_Snapshot : HistogramSnapshot }.

Record MeterSnapshot : Type := {
  Meter_Count : Z;
  Meter_Rate1 : float64;
  Meter_Rate5 : float64;
  Meter_Rate15 : float64;
  Meter_RateMean : float64
}.
Record Meter : Type := { Meter_Snapshot : MeterSnapshot }.

Record TimerSnapshot : Type := {
  Timer_Count : Z;
  Timer_Max : Z;
  Timer_Mean : float64;
  Timer_Min : Z;
  Timer_StdDev : float64;
  Timer_Variance : float64;
  Timer_Percentiles : list float64 -> list float64;
  Timer_Percentiles_length :
    forall ps, length (Timer_Percentiles ps) = length ps;
  Timer_Rate1 : float64;
  Timer_Rate5 : float64;
  Timer_Rate15 : float64;
  Timer_RateMean : float64
}.
Record Timer : Type := { Timer_Snapshot : TimerSnapshot }.

(** The argument [i interface{}] by dynamic type.  The six interfaces
    differ in the result type of [Snapshot], so no dynamic type satisfies
    two of them and the order of the [case]s does not matter. *)
Inductive iface : Type :=
| INil
| IPoint (v : float64)
| ICounter (v : Counter)
| IEWMA (v : EWMA)
| IGauge (v : Gauge)
| IHistogram (v : Histogram)
| IMeter (v : Meter)
| ITimer (v : Timer)
| IOther (dynamic_type : string).

Definition kind_of (i : iface) : option MetricType :=
  match i with
  | IPoint _ => Some MetricPoint
  | ICounter _ => Some MetricCounter
  | IEWMA _ => Some MetricEWMA
  | IGauge _ => Some MetricGauge
  | IHistogram _ => Some MetricHistogram
  | IMeter _ => Some MetricMeter
  | ITimer _ => Some MetricTimer
  | INil | IOther _ => None
  end.

(** *** [var pools [7]sync.Pool] *)

(** A pool holds the records put into it; the array is read through
    [pools_at], which checks the index as Go does. *)
Definition Pools : Type := Z -> list Metric.

Definition pools_len : Z := 7.

Definition pools_init : Pools := fun _ => [].

Definition pools_at (st : Pools) (t : MetricType) : result (list Metric) :=
  if (t <? 0) || (pools_len <=? t)
  then Panic (PanicIndexOutOfRange t pools_len)
  else Ok (st t).

Definition pools_set (st : Pools) (t : MetricType) (p : list Metric) : Pools :=
  fun k => if decide (k = t) then p else st k.

(** The value of the loop variable [i] that the [New] closure of
    [pools[k]] reads when it runs: [k] where each iteration has its own
    [i], the last index where the loop shares one. *)
Variable closure_i : Z -> MetricType.

(** [&Metric{Type: MetricType(i), Measures: make(map[string]interface{}, 1)}] *)
Definition pool_New (k : Z) : Metric :=
  {| Timestamp := 0; Type_ := closure_i k; Name := "";
     Measures := Some ∅ |}.

(** [pools[t].Get()]: [sync.Pool] hands out some record it holds and
    removes it, or calls [New]; [pick] is the pool's choice. *)
Definition pool_Get (k : Z) (p : list Metric) (pick : option nat)
  : Metric * list Metric :=
  match pick ≫= (fun j => (fun m => (m, delete j p)) <$> p !! j) with
  | Some got => got
  | None => (pool_New k, p)
  end.

Definition pools_Get (st : Pools) (t : MetricType) (pick : option nat)
  : result (Metric * Pools) :=
  p ← pools_at st t;
  let '(m, p') := pool_Get t p pick in
  mret (m, pools_set st t p').

(** [m.Measures[k] = v] *)
Definition set_measure (m : Metric) (k : string) (v : measure)
  : result Metric :=
  match Measures m with
  | None => Panic PanicNilMap
  | Some ms =>
      Ok {| Timestamp := Timestamp m; Type_ := Type_ m; Name := Name m;
            Measures := Some (<[k := v]> ms) |}
  end.

(** [func (m *Metric) Release()] *)
Definition Release (st : Pools) (m : Metric) : result Pools :=
  p ← pools_at st (Type_ m);
  mret (pools_set st (Type_ m) (m :: p)).

Definition percentiles : list float64 :=
  float64_const <$> [1 # 2; 3 # 4; 95 # 100; 99 # 100; 999 # 1000; 9999 # 10000]%Q.

(** [func NewMetric(name string, i interface{}) *Metric]; [now] is what
    [time.Now().UnixNano()] reads. *)
Definition NewMetric (st : Pools) (pick : option nat) (now : Z)
    (name : string) (i : iface) : result (Metric * Pools) :=
  let ts := now in
  '(m, t, st) ←
    match i with
    | IPoint v =>
        let t := MetricPoint in
        '(m, st) ← pools_Get st t pick;
        m ← set_measure m "value" (MPoint v);
        mret (m, t, st)
    | ICounter v =>
        let t := MetricCounter in
        '(m, st) ← pools_Get st t pick;
        let s := Counter_Snapshot v in
        m ← set_measure m "count" (MInt64 (Counter_Count s));
        mret (m, t, st)
    | IEWMA v =>
        let t := MetricEWMA in
        '(m, st) ← pools_Get st t pick;
        let s := EWMA_Snapshot v in
        m ← set_measure m "rate" (MFloat64 (EWMA_Rate s));
        mret (m, t, st)
    | IGauge v =>
        let t := MetricGauge in
        '(m, st) ← pools_Get st t pick;
        let s := Gauge_Snapshot v in
        m ← set_measure m "value" (MInt64 (Gauge_Value s));
        mret (m, t, st)
    | IHistogram v =>
        let t := MetricHistogram in
        '(m, st) ← pools_Get st t pick;
        let s := Histogram_Snapshot v in
        let p := Histogram_Percentiles s percentiles in
        m ← set_measure m "count" (MFloat64 (float64_of_int64 (Histogram_Count s)));
        m ← set_measure m "max" (MFloat64 (float64_of_int64 (Histogram_Max s)));
        m ← set_measure m "mean" (MFloat64 (Histogram_Mean s));
        m ← set_measure m "min" (MFloat64 (float64_of_int64 (Histogram_Min s)));
        m ← set_measure m "stddev" (MFloat64 (Histogram_StdDev s));
        m ← set_measure m "variance" (MFloat64 (Histogram_Variance s));
        p0 ← index p 0; m ← set_measure m "p50" (MFloat64 p0);
        p1 ← index p 1; m ← set_measure m "p75" (MFloat64 p1);
        p2 ← index p 2; m ← set_measure m "p95" (MFloat64 p2);
        p3 ← index p 3; m ← set_measure m "p99" (MFloat64 p3);
        p4 ← index p 4; m ← set_measure m "p999" (MFloat64 p4);
        p5 ← index p 5; m ← set_measure m "p9999" (MFloat64 p5);
        mret (m, t, st)
    | IMeter v =>
        let t := MetricMeter in
        '(m, st) ← pools_Get st t pick;
        let s := Meter_Snapshot v in
        m ← set_measure m "count" (MFloat64 (float64_of_int64 (Meter_Count s)));
        m ← set_measure m "m1" (MFloat64 (Meter_Rate1 s));
        m ← set_measure m "m5" (MFloat64 (Meter_Rate5 s));
        m ← set_measure m "m15" (MFloat64 (Meter_Rate15 s));
        m ← set_measure m "mean" (MFloat64 (Meter_RateMean s));
        mret (m, t, st)
    | ITimer v =>
        let t := MetricTimer in
        '(m, st) ← pools_Get st t pick;
        let s := Timer_Snapshot v in
        let p := Timer_Percentiles s percentiles in
        m ← set_measure m "count" (MFloat64 (float64_of_int64 (Timer_Count s)));
        m ← set_measure m "max" (MFloat64 (float64_of_int64 (Timer_Max s)));
        m ← set_measure m "mean" (MFloat64 (Timer_Mean s));
        m ← set_measure m "min" (MFloat64 (float64_of_int64 (Timer_Min s)));
        m ← set_measure m "stddev" (MFloat64 (Timer_StdDev s));
        m ← set_measure m "variance" (MFloat64 (Timer_Variance s));
        p0 ← index p 0; m ← set_measure m "p50" (MFloat64 p0);
        p1 ← index p 1; m ← set_measure m "p75" (MFloat64 p1);
        p2 ← index p 2; m ← set_measure m "p95" (MFloat64 p2);
        p3 ← index p 3; m ← set_measure m "p99" (MFloat64 p3);
        p4 ← index p 4; m ← set_measure m "p999" (MFloat64 p4);
        p5 ← index p 5; m ← set_measure m "p9999" (MFloat64 p5);
        m ← set_measure m "m1" (MFloat64 (Timer_Rate1 s));
        m ← set_measure m "m5" (MFloat64 (Timer_Rate5 s));
        m ← set_measure m "m15" (MFloat64 (Timer_Rate15 s));
        m ← set_measure m "meanrate" (MFloat64 (Timer_RateMean s));
        mret (m, t, st)
    | INil | IOther _ =>
        Panic (PanicValue "unexpected metric type")
    end;
  mret ({| Timestamp := ts; Type_ := t; Name := name;
           Measures := Measures m |}, st).

(** Every pooled record has an allocated [Measures] map, as every record
    made by [New] has. *)
Definition pools_ok (st : Pools) : Prop :=
  forall t m, m ∈ st t -> Measures m <> None.

(** The keys [NewMetric] writes for each kind, in the order of the source. *)
Definition measure_keys (t : MetricType) : list string :=
  if decide (t = MetricPoint) then ["value"]
  else if decide (t = MetricCounter) then ["count"]
  else if decide (t = MetricEWMA) then ["rate"]
  else if decide (t = MetricGauge) then ["value"]
  else if decide (t = MetricHistogram) then
    ["count"; "max"; "mean"; "min"; "stddev"; "variance";
     "p50"; "p75"; "p95"; "p99"; "p999"; "p9999"]
  else if decide (t = MetricMeter) then ["count"; "m1"; "m5"; "m15"; "mean"]
  else if decide (t = MetricTimer) then
    ["count"; "max"; "mean"; "min"; "stddev"; "variance";
     "p50"; "p75"; "p95"; "p99"; "p999"; "p9999";
     "m1"; "m5"; "m15"; "meanrate"]
  else [].

End Metrics.

End Runtime.

Module Sync.

(** ** Errors *)

Inductive error : Type :=
| ErrSyntax                                   (* strconv.ErrSyntax *)
| ErrRange                                    (* strconv.ErrRange *)
| NumError (func num : string) (err : error)  (* *strconv.NumError *)
| Errorf (format : string) (args : list string) (wrapped : error)
                                              (* fmt.Errorf with one %w verb *)
| NetError (what : string)                    (* what dialing or a round trip reports *)
| ErrClosed                                   (* redis: client is closed *)
| Canceled.                                   (* context.Canceled *)

(** [errors.Unwrap] *)
Definition Unwrap (e : error) : option error :=
  match e with
  | Errorf _ _ w => Some w
  | NumError _ _ w => Some w
  | _ => None
  end.

Definition RedisPayloadKey : string := "p".
Definition EnvRedisHost : string := "REDIS_HOST".
Definition EnvRedisPort : string := "REDIS_PORT".

(** ** [strconv.Atoi] and [%d] *)

Definition maxUint64 : Z := 2 ^ 64 - 1.

(** The digit loop of [strconv.ParseUint(s, 10, 64)]: a byte that is not a
    decimal digit is a syntax error, a value past [maxUint64] a range
    error, whichever the scan meets first. *)
Fixpoint parse_digits (s : string) (n : Z) : Z + error :=
  match s with
  | EmptyString => inl n
  | String c rest =>
      let d := Z.of_nat (Ascii.nat_of_ascii c) - 48 in
      if (d <? 0) || (9 <? d) then inr ErrSyntax
      else if maxUint64 / 10 + 1 <=? n then inr ErrRange
      else
        let n1 := n * 10 + d in
        if maxUint64 <? n1 then inr ErrRange else parse_digits rest n1
  end.

(** [strconv.Atoi] on a 64-bit platform: an optional sign, at least one
    digit, a value that fits [int]. *)
Definition Atoi (s : string) : Z * option error :=
  let fail kind := (0, Some (NumError "Atoi" s kind)) in
  match s with
  | EmptyString => fail ErrSyntax
  | String c rest =>
      let neg := bool_decide (c = "-"%char) in
      let digits :=
        if bool_decide (c = "+"%char) || neg then rest else s in
      match digits with
      | EmptyString => fail ErrSyntax
      | _ =>
          match parse_digits digits 0 with
          | inr kind => fail kind
          | inl un =>
              if negb neg && (2 ^ 63 <=? un) then fail ErrRange
              else if neg && (2 ^ 63 <? un) then fail ErrRange
              else (if neg then - un else un, None)
          end
      end
  end.

(** [%d] *)
Definition Itoa (n : Z) : string := NilZero.string_of_int (Z.to_int n).

(** ** [time.Duration], in nanoseconds *)

Definition Duration : Type := Z.
Definition Second : Duration := 1000000000.
Definition Minute : Duration := 60 * Second.

(** ** [redis.Options]

    The data fields of the record; its function and pointer fields
    ([Dialer], [OnConnect], [TLSConfig], [Limiter]) are nil throughout. *)
Record Options : Type := mkOptions {
  Network : string;
  Addr : string;
  Password : string;
  DB : Z;
  MaxRetries : Z;
  MinRetryBackoff : Duration;
  MaxRetryBackoff : Duration;
  DialTimeout : Duration;
  ReadTimeout : Duration;
  WriteTimeout : Duration;
  PoolSize : Z;
  MinIdleConns : Z;
  MaxConnAge : Duration;
  PoolTimeout : Duration;
  IdleTimeout : Duration;
  IdleCheckFrequency : Duration
}.

(** [var DefaultRedisOpts]; nothing in the package assigns to it. *)
Definition DefaultRedisOpts : Options := {|
  Network := "";
  Addr := "";
  Password := "";
  DB := 0;
  MinIdleConns := 2;
  PoolSize := 5;
  PoolTimeout := 3 * Minute;
  MaxRetries := 30;
  MinRetryBackoff := 1 * Second;
  MaxRetryBackoff := 3 * Second;
  DialTimeout := 10 * Second;
  ReadTimeout := 10 * Second;
  WriteTimeout := 10 * Second;
  IdleTimeout := 0;
  IdleCheckFrequency := 30 * Second;
  MaxConnAge := 2 * Minute
|}.

(** [opts.Addr = addr] *)
Definition set_Addr (opts : Options) (addr : string) : Options := {|
  Network := Network opts;
  Addr := addr;
  Password := Password opts;
  DB := DB opts;
  MinIdleConns := MinIdleConns opts;
  PoolSize := PoolSize opts;
  PoolTimeout := PoolTimeout opts;
  MaxRetries := MaxRetries opts;
  MinRetryBackoff := MinRetryBackoff opts;
  MaxRetryBackoff := MaxRetryBackoff opts;
  DialTimeout := DialTimeout opts;
  ReadTimeout := ReadTimeout opts;
  WriteTimeout := WriteTimeout opts;
  IdleTimeout := IdleTimeout opts;
  IdleCheckFrequency := IdleCheckFrequency opts;
  MaxConnAge := MaxConnAge opts
|}.

(** ** Contexts

    A context is the chain of cancel scopes it lies in, innermost first;
    it is done as soon as one of them has been cancelled. *)
Definition Ctx : Type := list nat.

Definition Background : Ctx := [].

Definition ctx_done (cancelled : gset nat) (c : Ctx) : bool :=
  existsb (fun i => bool_decide (i ∈ cancelled)) c.

(** ** Logger *)

Inductive Level : Type :=
| DebugLevel | InfoLevel | WarnLevel | ErrorLevel
| DPanicLevel | PanicLevel | FatalLevel.

(** A [*zap.SugaredLogger], by what its core answers to [Enabled]. *)
Record Logger : Type := { Enabled : Level -> bool }.

(** ** The connection handle, goroutines, events *)

(** A [*redis.Client]: the pool it shares, the options the pool was built
    with and the context its commands run under. *)
Record RedisClient : Type := {
  rc_conn : nat;
  rc_opts : Options;
  rc_ctx : Ctx
}.

(** [client.WithContext(ctx)] *)
Definition WithContext (client : RedisClient) (ctx : Ctx) : RedisClient :=
  {| rc_conn := rc_conn client; rc_opts := rc_opts client; rc_ctx := ctx |}.

Inductive Goroutine : Type :=
| GBarrierWorker                 (* go c.barrierWorker() *)
| GSubscriptionWorker            (* go c.subscriptionWorker() *)
| GSampler (tick : Duration) (rclient : RedisClient) (ctx : Ctx).
                                 (* the go func() of newClient *)

Inductive LogValue : Type :=
| LString (s : string)
| LInt (n : Z)
| LError (e : error)
| LOptions (o : Options)
| LPoolStats (conn : nat).

Inductive Event : Type :=
| EvDebugw (msg : string) (kv : list (string * LogValue))
| EvErrorw (msg : string) (kv : list (string * LogValue))
| EvNewClient (conn : nat) (opts : Options)   (* redis.NewClient(&opts) *)
| EvPing (conn : nat) (ctx : Ctx)             (* client.Ping() *)
| EvClose (conn : nat)                        (* client.Close() *)
| EvGo (g : Goroutine).                       (* a go statement *)

(** ** The world the constructor runs in *)

(** What the backing store answers: the reply to the health check sent to
    an address ([None] is PONG) and the error of closing a pool. *)
Record Net : Type := {
  ping_reply : string -> option error;
  close_reply : option error
}.

Record World : Type := mkWorld {
  w_env : gmap string string;   (* the process environment *)
  w_net : Net;
  w_next : nat;                 (* next unused connection, scope or channel id *)
  w_trace : list Event;         (* what has happened so far, oldest first *)
  w_cancelled : gset nat        (* the cancel scopes cancelled so far *)
}.

(** Code that reads and changes the world. *)
Definition M (A : Type) : Type := World -> A * World.

#[global] Instance M_ret : MRet M := fun _ a w => (a, w).
#[global] Instance M_bind : MBind M :=
  fun _ _ k m w => let '(a, w') := m w in k a w'.

Definition emit (e : Event) : M unit := fun w =>
  (tt, {| w_env := w_env w; w_net := w_net w; w_next := w_next w;
          w_trace := w_trace w ++ [e]; w_cancelled := w_cancelled w |}).

Definition fresh : M nat := fun w =>
  (w_next w, {| w_env := w_env w; w_net := w_net w; w_next := S (w_next w);
                w_trace := w_trace w; w_cancelled := w_cancelled w |}).

Definition inspect {A} (f : World -> A) : M A := fun w => (f w, w).

(** [os.Getenv]: the empty string when the variable is not set. *)
Definition Getenv (key : string) : M string :=
  inspect (fun w => default ""%string (w_env w !! key)).

Definition Debugw (log : Logger) (msg : string) (kv : list (string * LogValue))
  : M unit := emit (EvDebugw msg kv).

Definition Errorw (log : Logger) (msg : string) (kv : list (string * LogValue))
  : M unit := emit (EvErrorw msg kv).

(** [redis.NewClient(&opts)]: builds the pool; nothing is dialled yet. *)
Definition NewClient (opts : Options) : M RedisClient :=
  id ← fresh;
  _ ← emit (EvNewClient id opts);
  mret {| rc_conn := id; rc_opts := opts; rc_ctx := Background |}.

(** What a command sent to [addr] under the context [ctx] answers in [w]:
    when [ctx] is done the pool hands out no connection and the command
    fails with the context's error, otherwise the store replies. *)
Definition ping_answer (w : World) (ctx : Ctx) (addr : string) : option error :=
  if ctx_done (w_cancelled w) ctx then Some Canceled
  else ping_reply (w_net w) addr.

(** [client.Ping().Err()]: the command runs under the context the handle
    is bound to. *)
Definition Ping (client : RedisClient) : M (option error) :=
  _ ← emit (EvPing (rc_conn client) (rc_ctx client));
  inspect (fun w => ping_answer w (rc_ctx client) (Addr (rc_opts client))).

(** Whether [Close] has already run on the pool. *)
Definition conn_closed (tr : list Event) (conn : nat) : bool :=
  existsb (fun e => match e with
                    | EvClose k => bool_decide (k = conn)
                    | _ => false
                    end) tr.

(** [client.Close()]: the pool swaps its closed flag and answers
    [ErrClosed] when it was already set. *)
Definition Close_conn (client : RedisClient) : M (option error) :=
  r ← inspect (fun w => if conn_closed (w_trace w) (rc_conn client)
                        then Some ErrClosed else close_reply (w_net w));
  _ ← emit (EvClose (rc_conn client));
  mret r.

(** [context.WithCancel(ctx)]: the child context and the scope its cancel
    function cancels. *)
Definition WithCancel (ctx : Ctx) : M (Ctx * nat) :=
  id ← fresh;
  mret (id :: ctx, id).

(** [make(chan T)] *)
Record Chan : Type := { chan_id : nat; chan_cap : nat }.

Definition make_chan (cap : nat) : M Chan :=
  id ← fresh;
  mret {| chan_id := id; chan_cap := cap |}.

Definition go (g : Goroutine) : M unit := emit (EvGo g).

(** ** The client *)

(** Modelled from the spec: [runtime.RunParams] is declared outside the
    files at hand; the spec describes it as the run-identity record (run
    id, participant count, group id). *)
Record RunParams : Type := {
  TestRun : string;
  TestInstanceCount : Z;
  TestGroupID : string
}.

(** [DefaultClient] as the constructor leaves it.  [cancel] names the scope
    the stored cancel function cancels and [wg] is the wait group's
    counter; the embedded [sugarOperations] only points back at the client
    and is left out. *)
Record DefaultClient : Type := {
  ctx : Ctx;
  cancel : nat;
  wg : Z;
  log : Logger;
  extractor : Ctx -> option RunParams;
  rclient : RedisClient;
  barrierCh : Chan;
  newSubCh : Chan
}.

(** [c.wg.Add(n)] *)
Definition wg_Add (c : DefaultClient) (n : Z) : DefaultClient :=
  {| ctx := ctx c; cancel := cancel c; wg := wg c + n; log := log c;
     extractor := extractor c; rclient := rclient c;
     barrierCh := barrierCh c; newSubCh := newSubCh c |}.

(** [fmt.Sprintf("%s:%d", host, port)] *)
Definition host_port (host : string) (port : Z) : string :=
  (host ++ ":" ++ Itoa port)%string.

(** [func redisClient(ctx, log)], returning the connection handle or the error. *)
Definition redisClient (ctx : Ctx) (log : Logger) : M (RedisClient + error) :=
  let port := 6379 in
  host ← Getenv EnvRedisHost;
  let provision (port : Z) : M (RedisClient + error) :=
    _ ← Debugw log "trying redis host" [("host", LString host); ("port", LInt port)]%string;
    let opts := DefaultRedisOpts in
    let opts := set_Addr opts (host_port host port) in
    client ← NewClient opts;
    let client := WithContext client ctx in
    err ← Ping client;
    match err with
    | Some err =>
        _ ← Close_conn client;
        _ ← Errorw log "failed to ping redis host"
              [("host", LString host); ("port", LInt port); ("error", LError err)]%string;
        mret (inr err)
    | None =>
        _ ← Debugw log "redis ping OK" [("opts", LOptions opts)]%string;
        mret (inl client)
    end in
  portStr ← Getenv EnvRedisPort;
  if decide (portStr = ""%string) then provision port
  else
    let '(port, err) := Atoi portStr in
    match err with
    | Some err =>
        mret (inr (Errorf "failed to parse port '%q': %w" [portStr] err))
    | None => provision port
    end.

(** [func newClient(ctx, log, extractor)], returning the client or the error. *)
Definition newClient (ctx : Ctx) (log : Logger)
    (extractor : Ctx -> option RunParams) : M (DefaultClient + error) :=
  r ← redisClient ctx log;
  match r with
  | inr err => mret (inr (Errorf "failed to create redis client: %w" [] err))
  | inl rclient =>
      '(ctx, cancel) ← WithCancel ctx;
      barrierCh ← make_chan 0;
      newSubCh ← make_chan 0;
      let c := {| ctx := ctx; cancel := cancel; wg := 0; log := log;
                  extractor := extractor; rclient := rclient;
                  barrierCh := barrierCh; newSubCh := newSubCh |} in
      let c := wg_Add c 2 in
      _ ← go GBarrierWorker;
      _ ← go GSubscriptionWorker;
      _ ← (if Enabled log DebugLevel
           then go (GSampler (1 * Second) rclient ctx)
           else mret ());
      mret (inl c)
  end.

(** ** The running client: goroutines, [Close] and the wait group *)

Inductive Manager : Type := Barrier | Subscription.

Inductive manager_pc : Type :=
| MgrRunning      (* serving requests *)
| MgrStopping     (* saw the context done; the deferred wg.Done() is next *)
| MgrExited.

Inductive sampler_pc : Type :=
| SmpSelect       (* at the select *)
| SmpTicked       (* took the tick.C case *)
| SmpExited.      (* took the ctx.Done() case and returned *)

(** Where one call of [Close] stands. *)
Inductive close_pc : Type :=
| ClEntered
| ClCancelled                     (* after c.cancel() *)
| ClWaited                        (* after c.wg.Wait() *)
| ClReturned (err : option error).  (* after return c.rclient.Close() *)

(** The sampler goroutine with what its closure captured. *)
Record Sampler : Type := {
  smp_tick : Duration;
  smp_rclient : RedisClient;
  smp_ctx : Ctx;
  smp_pc : sampler_pc
}.

Inductive Action : Type :=
| ActCancel (scope : nat)                        (* a cancel function ran *)
| ActStoreCall (who : Manager) (handle : RedisClient)
                                                 (* a command sent to the store *)
| ActWgDone (who : Manager)                      (* c.wg.Done() *)
| ActPoolStats (conn : nat)                      (* rclient.PoolStats(), logged *)
| ActConnClose (conn : nat) (err : option error) (* c.rclient.Close() *)
| ActCloseReturn (call : nat) (err : option error).

Record Sys : Type := mkSys {
  s_cancelled : gset nat;              (* the cancel scopes cancelled so far *)
  s_wg : Z;                            (* c.wg's counter *)
  s_barrier : option manager_pc;       (* [None]: never started *)
  s_subscription : option manager_pc;
  s_sampler : option Sampler;          (* [None]: never started *)
  s_calls : list close_pc;             (* the calls of [Close], in order of entry *)
  s_log : list Action                  (* what has happened, newest first *)
}.

(** What has happened, oldest first. *)
Definition history (s : Sys) : list Action := rev (s_log s).

Definition launched (evs : list Event) : list Goroutine :=
  omap (fun e => match e with EvGo g => Some g | _ => None end) evs.

Definition start_manager (who : Manager) (gs : list Goroutine)
  : option manager_pc :=
  if existsb (fun g => match g, who with
                       | GBarrierWorker, Barrier => true
                       | GSubscriptionWorker, Subscription => true
                       | _, _ => false
                       end) gs
  then Some MgrRunning else None.

Definition start_sampler (gs : list Goroutine) : option Sampler :=
  head (omap (fun g => match g with
                       | GSampler tick rclient ctx =>
                           Some {| smp_tick := tick; smp_rclient := rclient;
                                   smp_ctx := ctx; smp_pc := SmpSelect |}
                       | _ => None
                       end) gs).

(** The system right after the constructor returned client [c], having
    launched the goroutines [gs], with the scopes [cancelled] already
    cancelled by then. *)
Definition init_sys (c : DefaultClient) (gs : list Goroutine)
    (cancelled : gset nat) : Sys :=
  {| s_cancelled := cancelled;
     s_wg := wg c;
     s_barrier := start_manager Barrier gs;
     s_subscription := start_manager Subscription gs;
     s_sampler := start_sampler gs;
     s_calls := [];
     s_log := [] |}.

Definition manager (who : Manager) (s : Sys) : option manager_pc :=
  match who with
  | Barrier => s_barrier s
  | Subscription => s_subscription s
  end.

Definition set_manager (who : Manager) (pc : manager_pc) (s : Sys) : Sys :=
  {| s_cancelled := s_cancelled s; s_wg := s_wg s;
     s_barrier := match who with Barrier => Some pc | _ => s_barrier s end;
     s_subscription :=
       match who with Subscription => Some pc | _ => s_subscription s end;
     s_sampler := s_sampler s; s_calls := s_calls s; s_log := s_log s |}.

Definition set_cancelled (cs : gset nat) (s : Sys) : Sys :=
  {| s_cancelled := cs; s_wg := s_wg s; s_barrier := s_barrier s;
     s_subscription := s_subscription s; s_sampler := s_sampler s;
     s_calls := s_calls s; s_log := s_log s |}.

Definition set_wg (n : Z) (s : Sys) : Sys :=
  {| s_cancelled := s_cancelled s; s_wg := n; s_barrier := s_barrier s;
     s_subscription := s_subscription s; s_sampler := s_sampler s;
     s_calls := s_calls s; s_log := s_log s |}.

Definition set_sampler_pc (pc : sampler_pc) (s : Sys) : Sys :=
  {| s_cancelled := s_cancelled s; s_wg := s_wg s; s_barrier := s_barrier s;
     s_subscription := s_subscription s;
     s_sampler :=
       (fun smp => {| smp_tick := smp_tick smp; smp_rclient := smp_rclient smp;
                      smp_ctx := smp_ctx smp; smp_pc := pc |}) <$> s_sampler s;
     s_calls := s_calls s; s_log := s_log s |}.

Definition set_calls (calls : list close_pc) (s : Sys) : Sys :=
  {| s_cancelled := s_cancelled s; s_wg := s_wg s; s_barrier := s_barrier s;
     s_subscription := s_subscription s; s_sampler := s_sampler s;
     s_calls := calls; s_log := s_log s |}.

Definition record (a : Action) (s : Sys) : Sys :=
  {| s_cancelled := s_cancelled s; s_wg := s_wg s; s_barrier := s_barrier s;
     s_subscription := s_subscription s; s_sampler := s_sampler s;
     s_calls := s_calls s; s_log := a :: s_log s |}.

Definition is_conn_close (a : Action) : bool :=
  match a with ActConnClose _ _ => true | _ => false end.

Definition is_store_call (a : Action) : bool :=
  match a with ActStoreCall _ _ => true | _ => false end.

(** [c.wg.Done()]: the counter may not go below zero. *)
Definition wg_Done (s : Sys) : result Sys :=
  if s_wg s - 1 <? 0 then Panic PanicNegativeWaitGroup
  else Ok (set_wg (s_wg s - 1) s).

(** Which goroutine moves next. *)
Inductive Label : Type :=
| LCancelOutside (scope : nat)  (* the caller cancels a context of its own *)
| LCallClose                    (* some goroutine enters c.Close() *)
| LClose (call : nat)           (* that call of Close runs its next statement *)
| LManagerCall (who : Manager)
| LManagerDone (who : Manager)
| LManagerExit (who : Manager)
| LSamplerTick
| LSamplerLog
| LSamplerDone.

(** What the pool answers to [Close] after the actions [log]: [ErrClosed]
    when it has been closed before. *)
Definition close_answer (net : Net) (log : list Action) : option error :=
  if existsb is_conn_close log then Some ErrClosed else close_reply net.

(** [func (c *DefaultClient) Close() error], one statement at a time:
    [c.cancel()], [c.wg.Wait()], [return c.rclient.Close()]. *)
Definition Close_step (c : DefaultClient) (net : Net) (call : nat) (s : Sys)
  : option (result Sys) :=
  match s_calls s !! call with
  | Some ClEntered =>
      Some (Ok (record (ActCancel (cancel c))
                  (set_calls (<[call := ClCancelled]> (s_calls s))
                     (set_cancelled ({[cancel c]} ∪ s_cancelled s) s))))
  | Some ClCancelled =>
      if decide (s_wg s = 0)
      then Some (Ok (set_calls (<[call := ClWaited]> (s_calls s)) s))
      else None
  | Some ClWaited =>
      let err := close_answer net (s_log s) in
      Some (Ok (record (ActCloseReturn call err)
                  (record (ActConnClose (rc_conn (rclient c)) err)
                     (set_calls (<[call := ClReturned err]> (s_calls s)) s))))
  | Some (ClReturned _) | None => None
  end.

(** Modelled from the spec: [barrierWorker] and [subscriptionWorker] are
    outside the files at hand.  By the spec a manager performs its work
    against the backing store, through the client's connection handle,
    never terminates except via context cancellation, and is joined through
    the wait group: it leaves once the client's context is done and signals
    the wait group on its way out. *)
Definition manager_step (c : DefaultClient) (who : Manager) (l : Label)
    (s : Sys) : option (result Sys) :=
  match l, manager who s with
  | LManagerCall _, Some MgrRunning =>
      Some (Ok (record (ActStoreCall who (rclient c)) s))
  | LManagerDone _, Some MgrRunning =>
      if ctx_done (s_cancelled s) (ctx c)
      then Some (Ok (set_manager who MgrStopping s))
      else None
  | LManagerExit _, Some MgrStopping =>
      Some (s' ← wg_Done s;
            mret (record (ActWgDone who) (set_manager who MgrExited s')))
  | _, _ => None
  end.

(** The sampler of [newClient]: a [select] between [tick.C], after which
    the pool statistics are read and logged, and [ctx.Done()], after which
    the goroutine returns. *)
Definition sampler_step (l : Label) (s : Sys) : option (result Sys) :=
  match s_sampler s with
  | None => None
  | Some smp =>
      match l, smp_pc smp with
      | LSamplerTick, SmpSelect => Some (Ok (set_sampler_pc SmpTicked s))
      | LSamplerLog, SmpTicked =>
          Some (Ok (record (ActPoolStats (rc_conn (smp_rclient smp)))
                      (set_sampler_pc SmpSelect s)))
      | LSamplerDone, SmpSelect =>
          if ctx_done (s_cancelled s) (smp_ctx smp)
          then Some (Ok (set_sampler_pc SmpExited s))
          else None
      | _, _ => None
      end
  end.

(** One move of the system; [None] when the move is not possible in [s]. *)
Definition step (c : DefaultClient) (net : Net) (l : Label) (s : Sys)
  : option (result Sys) :=
  match l with
  | LCancelOutside scope =>
      if decide (scope = cancel c) then None
      else Some (Ok (record (ActCancel scope)
                       (set_cancelled ({[scope]} ∪ s_cancelled s) s)))
  | LCallClose => Some (Ok (set_calls (s_calls s ++ [ClEntered]) s))
  | LClose call => Close_step c net call s
  | LManagerCall who | LManagerDone who | LManagerExit who =>
      manager_step c who l s
  | LSamplerTick | LSamplerLog | LSamplerDone => sampler_step l s
  end.

(** A schedule run from [s]: [None] when some move was not possible. *)
Fixpoint run (c : DefaultClient) (net : Net) (ls : list Label) (s : Sys)
  : option (result Sys) :=
  match ls with
  | [] => Some (Ok s)
  | l :: ls' =>
      match step c net l s with
      | Some (Ok s') => run c net ls' s'
      | Some (Panic p) => Some (Panic p)
      | None => None
      end
  end.

(** ** Vocabulary for the properties *)

(** What [os.Getenv] reads in [w]. *)
Definition getenv (w : World) (key : string) : string :=
  default ""%string (w_env w !! key).

(** The port [redisClient] settles on: the default when [REDIS_PORT] is
    unset or empty, what [Atoi] reads otherwise; [None] when [Atoi] fails. *)
Definition resolved_port (w : World) : option Z :=
  if decide (getenv w EnvRedisPort = ""%string) then Some 6379
  else match Atoi (getenv w EnvRedisPort) with
       | (port, None) => Some port
       | (_, Some _) => None
       end.

(** [w] after the events [evs] and the allocation of [ids] identifiers. *)
Definition happened (w : World) (evs : list Event) (ids : nat) : World :=
  mkWorld (w_env w) (w_net w) (ids + w_next w) (w_trace w ++ evs)
    (w_cancelled w).

(** The events of a call that took [w] to [w']. *)
Definition events_between (w w' : World) : list Event :=
  drop (length (w_trace w)) (w_trace w').

(** The goroutines the call launched. *)
Definition launched_between (w w' : World) : list Goroutine :=
  launched (events_between w w').

(** The pools built by [redis.NewClient] among the events, with their
    options. *)
Definition opened (evs : list Event) : list (nat * Options) :=
  omap (fun e => match e with
                 | EvNewClient k opts => Some (k, opts)
                 | _ => None
                 end) evs.

Definition is_sampler (g : Goroutine) : bool :=
  match g with GSampler _ _ _ => true | _ => false end.

(** The strings that spell an integer: an optional sign, then one decimal
    digit or more. *)
Definition is_digit (c : ascii) : bool :=
  let d := Z.of_nat (Ascii.nat_of_ascii c) - 48 in
  negb ((d <? 0) || (9 <? d)).

Fixpoint all_digits (s : string) : bool :=
  match s with
  | EmptyString => true
  | String c rest => is_digit c && all_digits rest
  end.

Definition integer_syntax (s : string) : bool :=
  match s with
  | EmptyString => false
  | String c rest =>
      let digits :=
        if bool_decide (c = "+"%char) || bool_decide (c = "-"%char)
        then rest else s in
      match digits with
      | EmptyString => false
      | _ => all_digits digits
      end
  end.

(** The ways provisioning fails: [REDIS_PORT] is set and [Atoi] rejects it,
    or the health check of the resolved address, sent under the context
    handed in, reports an error; that is also how an unreachable host
    shows, as nothing is dialled before, and how a context shows that is
    already done. *)
Definition malformed_port (w : World) : Prop := resolved_port w = None.

Definition ping_fails (ctx : Ctx) (w : World) : Prop :=
  exists port, resolved_port w = Some port /\
    ping_answer w ctx (host_port (getenv w EnvRedisHost) port) <> None.

(** *** Invariants of the running client *)

(** What a manager contributes to the wait group's counter. *)
Definition live (pc : option manager_pc) : Z :=
  match pc with
  | Some MgrRunning | Some MgrStopping => 1
  | Some MgrExited | None => 0
  end.

Definition is_returned (pc : close_pc) : bool :=
  match pc with ClReturned _ => true | _ => false end.

(** How a returned call of [Close] sits in the log (newest first): its own
    close of the pool, answered [err]; before it the cancellation and the
    exit of every manager that was started; after it no command to the
    store. *)
Definition returned_ok (c : DefaultClient) (net : Net) (s : Sys)
    (call : nat) (err : option error) : Prop :=
  exists newer older,
    s_log s = newer ++ [ActCloseReturn call err;
                        ActConnClose (rc_conn (rclient c)) err] ++ older /\
    err = close_answer net older /\
    ActCancel (cancel c) ∈ older /\
    (forall who, manager who s <> None -> ActWgDone who ∈ older) /\
    (forall a, a ∈ newer -> is_store_call a = false).

Record Inv (c : DefaultClient) (net : Net) (s : Sys) : Prop := {
  inv_wg : s_wg s = live (s_barrier s) + live (s_subscription s);
  inv_exited :
    forall who, manager who s = Some MgrExited -> ActWgDone who ∈ s_log s;
  inv_cancel :
    forall k pc, s_calls s !! k = Some pc -> pc <> ClEntered ->
      cancel c ∈ s_cancelled s /\ ActCancel (cancel c) ∈ s_log s;
  inv_waited :
    forall k pc, s_calls s !! k = Some pc ->
      pc <> ClEntered -> pc <> ClCancelled -> s_wg s = 0;
  inv_closed : existsb is_conn_close (s_log s) = true -> s_wg s = 0;
  inv_returned :
    forall k err, s_calls s !! k = Some (ClReturned err) ->
      returned_ok c net s k err;
  inv_handle :
    forall who h, ActStoreCall who h ∈ s_log s -> h = rclient c;
  inv_count :
    length (List.filter is_conn_close (s_log s)) =
    length (List.filter is_returned (s_calls s));
  inv_first :
    forall i j e1 e2, i <> j ->
      s_calls s !! i = Some (ClReturned e1) ->
      s_calls s !! j = Some (ClReturned e2) ->
      e1 = Some ErrClosed \/ e2 = Some ErrClosed
}.

(** What no move changes: which managers were started and what the
    sampler's closure captured; cancelled scopes stay cancelled. *)
Definition same_cast (s s' : Sys) : Prop :=
  (forall who, manager who s' = None <-> manager who s = None) /\
  smp_ctx <$> s_sampler s' = smp_ctx <$> s_sampler s /\
  smp_rclient <$> s_sampler s' = smp_rclient <$> s_sampler s /\
  smp_tick <$> s_sampler s' = smp_tick <$> s_sampler s /\
  s_cancelled s ⊆ s_cancelled s'.

(** ** Sample worlds *)

Definition quiet : Logger := {| Enabled := fun lvl =>
  match lvl with DebugLevel => false | _ => true end |}.

Definition verbose : Logger := {| Enabled := fun _ => true |}.

Definition no_run : Ctx -> option RunParams := fun _ => None.

(** A store that answers every health check. *)
Definition net_up : Net :=
  {| ping_reply := fun _ => None; close_reply := None |}.

(** No store behind any address. *)
Definition net_down : Net :=
  {| ping_reply := fun _ => Some (NetError "dial tcp: connection refused");
     close_reply := None |}.

(** Nothing set in the environment, a store on the local machine. *)
Definition w_local : World := mkWorld ∅ net_up 0 [] ∅.

Definition w_unreachable : World :=
  mkWorld {[ EnvRedisHost := "redis"%string ]} net_down 0 [] ∅.

Definition w_bad_port : World :=
  mkWorld (<[ EnvRedisPort := "63x9"%string ]>
             {[ EnvRedisHost := "redis"%string ]}) net_up 0 [] ∅.

Definition w_other_port : World :=
  mkWorld (<[ EnvRedisPort := "6380"%string ]>
             {[ EnvRedisHost := "redis"%string ]}) net_up 0 [] ∅.

(** [REDIS_PORT] set to the empty string. *)
Definition w_empty_port : World :=
  mkWorld (<[ EnvRedisPort := ""%string ]>
             {[ EnvRedisHost := "redis"%string ]}) net_up 0 [] ∅.

(** A store that answers, and a caller whose context, scope 0, was
    cancelled before the constructor runs. *)
Definition w_done_context : World :=
  mkWorld {[ EnvRedisHost := "redis"%string ]} net_up 1 [] {[ 0%nat ]}.

(** A port below zero, and one above the range of TCP ports. *)
Definition w_negative_port : World :=
  mkWorld (<[ EnvRedisPort := "-1"%string ]>
             {[ EnvRedisHost := "redis"%string ]}) net_up 0 [] ∅.

Definition w_large_port : World :=
  mkWorld (<[ EnvRedisPort := "70000"%string ]>
             {[ EnvRedisHost := "redis"%string ]}) net_up 0 [] ∅.

(** The client a construction in [w_other_port] returns, and the world it
    leaves. *)
Definition sample_client (log : Logger) : DefaultClient :=
  {| ctx := [1%nat]; cancel := 1%nat; wg := 2; log := log;
     extractor := no_run;
     rclient := {| rc_conn := 0%nat;
                   rc_opts := set_Addr DefaultRedisOpts "redis:6380";
                   rc_ctx := Background |};
     barrierCh := {| chan_id := 2%nat; chan_cap := 0%nat |};
     newSubCh := {| chan_id := 3%nat; chan_cap := 0%nat |} |}.

Definition w_started (log : Logger) : World :=
  snd (newClient Background log no_run w_other_port).

(** One call of [Close] running to its end, the managers leaving in
    between; then a second call. *)
Definition close_once : list Label :=
  [LCallClose; LClose 0;
   LManagerDone Barrier; LManagerExit Barrier;
   LManagerDone Subscription; LManagerExit Subscription;
   LClose 0; LClose 0].

Definition close_twice : list Label :=
  close_once ++ [LCallClose; LClose 1; LClose 1; LClose 1].

(** ** The exported constructors and the accessor *)

(** Modelled from the spec: [runtime.RunEnv] is declared outside the files
    at hand; the constructors use its run parameters and the logger its
    [SLogger()] answers. *)
Record RunEnv : Type := {
  RunEnv_RunParams : RunParams;
  SLogger : Logger
}.

(** [func NewBoundClient(ctx, runenv)]: the extractor answers the address
    of [runenv.RunParams], whatever context it is given. *)
Definition NewBoundClient (ctx : Ctx) (runenv : RunEnv)
  : M (DefaultClient + error) :=
  newClient ctx (SLogger runenv) (fun _ => Some (RunEnv_RunParams runenv)).

(** What a [Must] constructor does: it returns the client or panics with
    the error. *)
Inductive must (A : Type) : Type :=
| Returned (a : A)
| Panicked (err : error).
Arguments Returned {A} a.
Arguments Panicked {A} err.

(** [func MustBoundClient(ctx, runenv)] *)
Definition MustBoundClient (ctx : Ctx) (runenv : RunEnv)
  : M (must DefaultClient) :=
  r ← NewBoundClient ctx runenv;
  match r with
  | inr err => mret (Panicked err)
  | inl c => mret (Returned c)
  end.

Section Generic.

(** [GetRunParams], declared outside the files at hand. *)
Variable GetRunParams : Ctx -> option RunParams.

(** [func NewGenericClient(ctx, log)] *)
Definition NewGenericClient (ctx : Ctx) (log : Logger)
  : M (DefaultClient + error) :=
  newClient ctx log GetRunParams.

(** [func MustGenericClient(ctx, log)] *)
Definition MustGenericClient (ctx : Ctx) (log : Logger)
  : M (must DefaultClient) :=
  r ← NewGenericClient ctx log;
  match r with
  | inr err => mret (Panicked err)
  | inl c => mret (Returned c)
  end.

End Generic.

Definition sample_runenv : RunEnv :=
  {| RunEnv_RunParams :=
       {| TestRun := "run-1"; TestInstanceCount := 2; TestGroupID := "single" |};
     SLogger := verbose |}.

(** [func (c *DefaultClient) RedisClient() *redis.Client] *)
Definition DefaultClient_RedisClient (c : DefaultClient) : RedisClient :=
  rclient c.

(** The number a run of decimal digits spells after the digits that gave
    [acc], read from the left. *)
Fixpoint uint_value (d : Decimal.uint) (acc : Z) : Z :=
  match d with
  | Decimal.Nil => acc
  | Decimal.D0 l => uint_value l (10 * acc)
  | Decimal.D1 l => uint_value l (10 * acc + 1)
  | Decimal.D2 l => uint_value l (10 * acc + 2)
  | Decimal.D3 l => uint_value l (10 * acc + 3)
  | Decimal.D4 l => uint_value l (10 * acc + 4)
  | Decimal.D5 l => uint_value l (10 * acc + 5)
  | Decimal.D6 l => uint_value l (10 * acc + 6)
  | Decimal.D7 l => uint_value l (10 * acc + 7)
  | Decimal.D8 l => uint_value l (10 * acc + 8)
  | Decimal.D9 l => uint_value l (10 * acc + 9)
  end.

(** A world whose trace names no identifier that is still to be given out. *)
Definition ids_below (w : World) : Prop :=
  forall e, e ∈ w_trace w ->
    match e with
    | EvNewClient k _ | EvPing k _ | EvClose k => (k < w_next w)%nat
    | _ => True
    end.

(** The moves that let a manager leave once the client's context is done,
    and the moves that take a call of [Close] to its return from [s]. *)
Definition drain (who : Manager) (s : Sys) : list Label :=
  match manager who s with
  | Some MgrRunning => [LManagerDone who; LManagerExit who]
  | Some MgrStopping => [LManagerExit who]
  | Some MgrExited | None => []
  end.

Definition finish_close (s : Sys) (call : nat) : list Label :=
  match s_calls s !! call with
  | Some ClEntered =>
      [LClose call] ++ drain Barrier s ++ drain Subscription s ++
      [LClose call; LClose call]
  | Some ClCancelled =>
      drain Barrier s ++ drain Subscription s ++ [LClose call; LClose call]
  | Some ClWaited => [LClose call]
  | Some (ClReturned _) | None => []
  end.

(** The sampler has returned only if its context is done. *)
Definition sampler_exit_ok (s : Sys) : Prop :=
  forall smp, s_sampler s = Some smp -> smp_pc smp = SmpExited ->
              ctx_done (s_cancelled s) (smp_ctx smp) = true.

End Sync.

(** C10. [MetricType.String] returns the fixed name of each of the seven
    defined metric types (the values 0 to 6) and panics with an
    index-out-of-range error for every value outside that range. *)
Theorem C10_String_names_and_panics :
  Runtime.String Runtime.MetricPoint = Ok "point"%string /\
  Runtime.String Runtime.MetricCounter = Ok "counter"%string /\
  Runtime.String Runtime.MetricEWMA = Ok "ewma"%string /\
  Runtime.String Runtime.MetricGauge = Ok "gauge"%string /\
  Runtime.String Runtime.MetricHistogram = Ok "histogram"%string /\
  Runtime.String Runtime.MetricMeter = Ok "meter"%string /\
  Runtime.String Runtime.MetricTimer = Ok "timer"%string /\
  (forall mt : Runtime.MetricType,
      0 <= mt <= 6 -> exists name, Runtime.String mt = Ok name) /\
  (forall mt : Runtime.MetricType,
      ~ (0 <= mt <= 6) ->
      Runtime.String mt = Panic (PanicIndexOutOfRange mt 7)).
Proof.
  repeat split; try reflexivity.
  - intros mt Hmt.
    assert (mt = 0 \/ mt = 1 \/ mt = 2 \/ mt = 3 \/ mt = 4 \/ mt = 5 \/ mt = 6)
      as Hcases by lia.
    destruct Hcases as [-> | [-> | [-> | [-> | [-> | [-> | ->]]]]]];
      eexists; reflexivity.
  - intros mt Hmt. unfold Runtime.String, index.
    change (Z.of_nat (length Runtime.metricTypeNames)) with 7.
    destruct (mt <? 0) eqn:Hneg; simpl; [reflexivity |].
    destruct (7 <=? mt) eqn:Hbig; [reflexivity |].
    exfalso. apply Hmt. lia.
Qed.

(** ** The metric record: [NewMetric] and the pools *)

Section MetricsFacts.

Variable float64 : Type.
Variable float64_of_int64 : Z -> float64.
Variable float64_const : Q -> float64.
Variable closure_i : Z -> Runtime.MetricType.

Abbreviation Metric := (Runtime.Metric float64).
Abbreviation Pools := (Runtime.Pools float64).
Abbreviation NewMetric :=
  (Runtime.NewMetric float64 float64_of_int64 float64_const closure_i).

Lemma index_in_range {A} (arr : list A) (i : Z) :
  0 <= i < Z.of_nat (length arr) -> exists x, index arr i = Ok x.
Proof.
  intros Hi. unfold index.
  replace (i <? 0) with false by lia.
  replace (Z.of_nat (length arr) <=? i) with false by lia.
  simpl. destruct (arr !! Z.to_nat i) eqn:Hlook; [eauto |].
  apply lookup_ge_None in Hlook. lia.
Qed.

Lemma set_measure_allocated (m : Metric) k v :
  Runtime.Measures _ m <> None ->
  exists m', Runtime.set_measure _ m k v = Ok m' /\
             Runtime.Measures _ m' <> None.
Proof.
  intros Hm. unfold Runtime.set_measure.
  destruct (Runtime.Measures _ m); [| congruence].
  eexists. split; [reflexivity | discriminate].
Qed.

Lemma pools_set_ok (st : Pools) t p :
  Runtime.pools_ok _ st ->
  (forall m, m ∈ p -> Runtime.Measures _ m <> None) ->
  Runtime.pools_ok _ (Runtime.pools_set _ st t p).
Proof.
  intros Hst Hp k m. unfold Runtime.pools_set.
  destruct (decide (k = t)); [apply Hp | apply Hst].
Qed.

Lemma pool_Get_allocated (st : Pools) k pick m p' :
  Runtime.pools_ok _ st ->
  Runtime.pool_Get _ closure_i k (st k) pick = (m, p') ->
  Runtime.Measures _ m <> None /\
  (forall m', m' ∈ p' -> Runtime.Measures _ m' <> None).
Proof.
  intros Hst. unfold Runtime.pool_Get.
  destruct pick as [j |]; simpl.
  - destruct (st k !! j) as [m0 |] eqn:Hj; simpl; intros [= <- <-].
    + split.
      * apply (Hst k). eapply list_elem_of_lookup_2, Hj.
      * intros m' Hm'. apply (Hst k).
        eapply list_elem_of_delete_inv, Hm'.
    + split; [discriminate | apply Hst].
  - intros [= <- <-]. split; [discriminate | apply Hst].
Qed.

Lemma pools_Get_allocated (st : Pools) t pick :
  Runtime.pools_ok _ st -> 0 <= t < 7 ->
  exists m st', Runtime.pools_Get _ closure_i st t pick = Ok (m, st') /\
                Runtime.Measures _ m <> None /\ Runtime.pools_ok _ st'.
Proof.
  intros Hst Ht. unfold Runtime.pools_Get, Runtime.pools_at, Runtime.pools_len.
  replace (t <? 0) with false by lia. replace (7 <=? t) with false by lia.
  simpl. destruct (Runtime.pool_Get _ closure_i t (st t) pick) as [m p'] eqn:Hget.
  destruct (pool_Get_allocated _ _ _ _ _ Hst Hget) as [Hm Hp'].
  exists m, (Runtime.pools_set _ st t p'). split; [reflexivity |].
  split; [exact Hm | by apply pools_set_ok].
Qed.

Lemma percentiles_length : length (Runtime.percentiles _ float64_const) = 6%nat.
Proof. reflexivity. Qed.

Ltac go_simpl := cbn [mbind mret result_bind result_ret rbind].

Ltac go_get Hst :=
  match goal with
  | |- context [Runtime.pools_Get _ _ ?st ?t ?pick] =>
      let Hget := fresh "Hget" in
      destruct (pools_Get_allocated st t pick Hst) as (?m & ?st' & Hget & ? & ?);
      [ unfold Runtime.MetricPoint, Runtime.MetricCounter, Runtime.MetricEWMA,
          Runtime.MetricGauge, Runtime.MetricHistogram, Runtime.MetricMeter,
          Runtime.MetricTimer; lia
      | rewrite Hget; clear Hget; go_simpl ]
  end.

Ltac go_set :=
  match goal with
  | |- context [Runtime.set_measure _ ?m ?k ?v] =>
      let Hset := fresh "Hset" in
      destruct (set_measure_allocated m k v) as (?m & Hset & ?);
      [ assumption | rewrite Hset; clear Hset; go_simpl ]
  end.

Ltac go_index Hlen i :=
  match goal with
  | |- context [index ?p i] =>
      let Hidx := fresh "Hidx" in
      destruct (index_in_range p i) as (?x & Hidx);
      [ rewrite Hlen, percentiles_length; lia
      | rewrite Hidx; clear Hidx; go_simpl ]
  end.

(** A recognized argument: the record comes back filled in, with its map
    allocated, and the pools keep their invariant. *)
Lemma NewMetric_recognized (st : Pools) (pick : option nat) (now : Z)
    (name : string) (i : Runtime.iface float64) (t : Runtime.MetricType) :
  Runtime.kind_of _ i = Some t ->
  Runtime.pools_ok _ st ->
  exists m st',
    NewMetric st pick now name i = Ok (m, st') /\
    Runtime.Type_ _ m = t /\
    Runtime.Name _ m = name /\
    Runtime.Timestamp _ m = now /\
    Runtime.Measures _ m <> None /\
    Runtime.pools_ok _ st'.
Proof.
  intros Hk Hst. unfold Runtime.NewMetric.
  destruct i as [| v | v | v | v | v | v | v | ty]; simpl in Hk;
    try discriminate; injection Hk as <-.
  - go_get Hst. go_set. eauto 10.
  - go_get Hst. go_set. eauto 10.
  - go_get Hst. go_set. eauto 10.
  - go_get Hst. go_set. eauto 10.
  - go_get Hst.
    pose proof (Runtime.Histogram_Percentiles_length _
                  (Runtime.Histogram_Snapshot _ v)
                  (Runtime.percentiles _ float64_const)) as Hlen.
    do 6 go_set.
    go_index Hlen 0; go_set. go_index Hlen 1; go_set.
    go_index Hlen 2; go_set. go_index Hlen 3; go_set.
    go_index Hlen 4; go_set. go_index Hlen 5; go_set.
    eauto 10.
  - go_get Hst. do 5 go_set. eauto 10.
  - go_get Hst.
    pose proof (Runtime.Timer_Percentiles_length _
                  (Runtime.Timer_Snapshot _ v)
                  (Runtime.percentiles _ float64_const)) as Hlen.
    do 6 go_set.
    go_index Hlen 0; go_set. go_index Hlen 1; go_set.
    go_index Hlen 2; go_set. go_index Hlen 3; go_set.
    go_index Hlen 4; go_set. go_index Hlen 5; go_set.
    do 4 go_set. eauto 10.
Qed.

Lemma pools_init_ok : Runtime.pools_ok float64 (Runtime.pools_init _).
Proof. intros t m Hm. by apply elem_of_nil in Hm. Qed.

(** Releasing a record with an allocated map keeps the invariant; a record
    whose [Type] is no index of the array makes [Release] panic. *)
Lemma Release_ok (st : Pools) (m : Metric) :
  Runtime.pools_ok _ st ->
  Runtime.Measures _ m <> None ->
  0 <= Runtime.Type_ _ m < 7 ->
  exists st', Runtime.Release _ st m = Ok st' /\ Runtime.pools_ok _ st'.
Proof.
  intros Hst Hm Ht. unfold Runtime.Release, Runtime.pools_at, Runtime.pools_len.
  replace (Runtime.Type_ _ m <? 0) with false by lia.
  replace (7 <=? Runtime.Type_ _ m) with false by lia.
  eexists. split; [reflexivity |].
  apply pools_set_ok; [exact Hst |].
  intros m' [-> | Hm']%elem_of_cons; [exact Hm | by eapply Hst].
Qed.

(** A pooled record whose map is nil makes a recognized argument panic:
    the invariant of the pools is what [NewMetric] relies on. *)
Lemma NewMetric_nil_map (v : float64) (now : Z) (name : string) :
  let stale := {| Runtime.Timestamp := 0; Runtime.Type_ := Runtime.MetricPoint;
                  Runtime.Name := ""; Runtime.Measures := None |} in
  forall st, Runtime.Release _ (Runtime.pools_init _) stale = Ok st ->
  NewMetric st (Some 0%nat) now name (Runtime.IPoint _ v) = Panic PanicNilMap.
Proof. intros stale st [= <-]. reflexivity. Qed.

(** C9, amended. [NewMetric] panics for every argument whose dynamic type
    is not one of the seven recognized metric kinds.  For every recognized
    kind it returns a metric record whose [Type] is the argument's kind and
    whose [Name] and [Timestamp] are the name passed in and the time read,
    as long as the records in the pools have an allocated [Measures] map:
    the pools start that way and [NewMetric] keeps them so, returning a
    record whose map is allocated.  When the pool hands out a record whose
    map is nil, [NewMetric] panics for a recognized kind as well. *)
Theorem C9_NewMetric_kinds (st : Pools) (pick : option nat) (now : Z)
    (name : string) (i : Runtime.iface float64) :
  (Runtime.kind_of _ i = None ->
   NewMetric st pick now name i = Panic (PanicValue "unexpected metric type")) /\
  (forall t, Runtime.kind_of _ i = Some t ->
     Runtime.pools_ok _ st ->
     exists m st',
       NewMetric st pick now name i = Ok (m, st') /\
       Runtime.Type_ _ m = t /\
       Runtime.Name _ m = name /\
       Runtime.Timestamp _ m = now /\
       Runtime.Measures _ m <> None /\
       Runtime.pools_ok _ st') /\
  Runtime.pools_ok float64 (Runtime.pools_init _) /\
  (forall t, Runtime.kind_of _ i = Some t ->
     Runtime.Measures _ (fst (Runtime.pool_Get _ closure_i t (st t) pick)) = None ->
     NewMetric st pick now name i = Panic PanicNilMap).
Proof.
  split; [| split; [| split]].
  - destruct i; simpl; intros Hk; try discriminate; reflexivity.
  - intros t Hk Hst. by apply NewMetric_recognized.
  - apply pools_init_ok.
  - intros t Hk Hnil.
    destruct (Runtime.pool_Get _ closure_i t (st t) pick)
      as [[ts0 ty0 nm0 meas0] p'] eqn:Hget.
    simpl in Hnil. subst meas0.
    destruct i as [| v | v | v | v | v | v | v | ty]; simpl in Hk;
      try discriminate; injection Hk as <-;
      unfold Runtime.NewMetric, Runtime.pools_Get, Runtime.pools_at;
      cbn [mbind mret result_bind result_ret rbind orb];
      simpl; rewrite Hget; reflexivity.
Qed.

End MetricsFacts.

(** Against C9 as stated: a counter record whose map is nil is released,
    which [Release] accepts; the next [NewMetric] of a counter, a recognized
    kind, is handed that record and panics. *)
Lemma C9_released_nil_map_counterexample :
  let stale := {| Runtime.Timestamp := 0; Runtime.Type_ := Runtime.MetricCounter;
                  Runtime.Name := "requests"; Runtime.Measures := None |} in
  let requests :=
    Runtime.ICounter Z
      {| Runtime.Counter_Snapshot := {| Runtime.Counter_Count := 3 |} |} in
  Runtime.kind_of Z requests = Some Runtime.MetricCounter /\
  exists st,
    Runtime.Release Z (Runtime.pools_init Z) stale = Ok st /\
    Runtime.NewMetric Z (fun n => n) (fun _ => 0) (fun k => k) st (Some 0%nat)
      1582230020 "requests" requests = Panic PanicNilMap.
Proof.
  intros stale requests. split; [reflexivity |].
  eexists. split; reflexivity.
Qed.

Lemma C9_NewMetric_kinds_witness :
  Runtime.pools_ok Z (Runtime.pools_init Z) /\
  exists m st',
    Runtime.NewMetric Z (fun n => n) (fun _ => 0) (fun k => k)
      (Runtime.pools_init Z) None 1582230020 "latency"
      (Runtime.IHistogram Z
         {| Runtime.Histogram_Snapshot :=
              {| Runtime.Histogram_Count := 3;
                 Runtime.Histogram_Max := 9;
                 Runtime.Histogram_Mean := 5;
                 Runtime.Histogram_Min := 1;
                 Runtime.Histogram_StdDev := 2;
                 Runtime.Histogram_Variance := 4;
                 Runtime.Histogram_Percentiles := fun ps => ps;
                 Runtime.Histogram_Percentiles_length := fun ps => eq_refl |} |})
    = Ok (m, st') /\
    Runtime.Type_ _ m = Runtime.MetricHistogram /\
    Runtime.Name _ m = "latency"%string /\
    Runtime.Timestamp _ m = 1582230020 /\
    Runtime.Measures _ m <> None /\
    Runtime.pools_ok Z st'.
Proof.
  split; [apply pools_init_ok |].
  apply (proj1 (proj2 (C9_NewMetric_kinds Z (fun n => n) (fun _ => 0)
                         (fun k => k) (Runtime.pools_init Z) None 1582230020
                         "latency" _)));
    [reflexivity | apply pools_init_ok].
Defined.

(** ** The connection provisioner and the constructor *)

Import Sync.

(** Running the code: the monad's operations and the primitives unfold to
    plain functions of the world. *)
Ltac run_M :=
  cbv beta iota zeta delta
    [mbind mret M_bind M_ret Getenv Debugw Errorw NewClient Ping Close_conn
     WithCancel make_chan go emit fresh inspect WithContext wg_Add
     ping_answer];
  cbn [w_env w_net w_next w_trace w_cancelled rc_conn rc_opts rc_ctx fst snd];
  repeat match goal with
    | |- context [default ""%string (w_env ?w !! ?key)] =>
        change (default ""%string (w_env w !! key)) with (getenv w key)
    | |- context [if ctx_done (w_cancelled ?w) ?c then Some Canceled
                  else ping_reply (w_net ?w) ?a] =>
        change (if ctx_done (w_cancelled w) c then Some Canceled
                else ping_reply (w_net w) a) with (ping_answer w c a)
    end.

Lemma happened_events (w : World) (evs : list Event) (ids : nat) :
  events_between w (happened w evs ids) = evs.
Proof. unfold events_between. simpl. by rewrite drop_app_length. Qed.

(** A port that [Atoi] rejects: the error is returned at once and the
    world is left as it was. *)
Lemma redisClient_bad_port (ctx : Ctx) (log : Logger) (w : World) (e : error) :
  getenv w EnvRedisPort <> ""%string ->
  snd (Atoi (getenv w EnvRedisPort)) = Some e ->
  redisClient ctx log w =
    (inr (Errorf "failed to parse port '%q': %w" [getenv w EnvRedisPort] e), w).
Proof.
  intros Hset Hbad. unfold redisClient. run_M.
  destruct (decide (getenv w EnvRedisPort = ""%string)) as [Heq | _];
    [contradiction |].
  destruct (Atoi (getenv w EnvRedisPort)) as [port err]. simpl in Hbad.
  subst err. reflexivity.
Qed.

(** A resolved port: the pool is built for [host:port], bound to [ctx] and
    pinged; a failed ping closes it. *)
Lemma redisClient_provisions (ctx : Ctx) (log : Logger) (w : World) (port : Z) :
  resolved_port w = Some port ->
  let host := getenv w EnvRedisHost in
  let opts := set_Addr DefaultRedisOpts (host_port host port) in
  let conn := w_next w in
  redisClient ctx log w =
    match ping_answer w ctx (host_port host port) with
    | Some err =>
        (inr err,
         happened w
           [EvDebugw "trying redis host" [("host", LString host); ("port", LInt port)];
            EvNewClient conn opts;
            EvPing conn ctx;
            EvClose conn;
            EvErrorw "failed to ping redis host"
              [("host", LString host); ("port", LInt port); ("error", LError err)]]%string
           1)
    | None =>
        (inl {| rc_conn := conn; rc_opts := opts; rc_ctx := ctx |},
         happened w
           [EvDebugw "trying redis host" [("host", LString host); ("port", LInt port)];
            EvNewClient conn opts;
            EvPing conn ctx;
            EvDebugw "redis ping OK" [("opts", LOptions opts)]]%string
           1)
    end.
Proof.
  intros Hport host opts conn. unfold redisClient. run_M.
  assert (Addr (set_Addr DefaultRedisOpts (host_port host port)) =
          host_port host port) as Haddr by reflexivity.
  unfold resolved_port in Hport.
  destruct (decide (getenv w EnvRedisPort = ""%string)) as [Heq | Hne].
  - injection Hport as <-. run_M. fold host. rewrite Haddr.
    destruct (ping_answer w ctx (host_port host 6379)) as [err |];
      unfold happened; run_M; rewrite <- !app_assoc; reflexivity.
  - destruct (Atoi (getenv w EnvRedisPort)) as [p [err |]]; [discriminate |].
    injection Hport as ->. run_M. fold host. rewrite Haddr.
    destruct (ping_answer w ctx (host_port host port)) as [err |];
      unfold happened; run_M; rewrite <- !app_assoc; reflexivity.
Qed.

Lemma events_between_same (w : World) : events_between w w = [].
Proof. unfold events_between. by rewrite drop_all. Qed.

(** The constructor after a failed provisioning. *)
Lemma newClient_fails (ctx : Ctx) (log : Logger)
    (extractor : Ctx -> option RunParams) (w w1 : World) (e : error) :
  redisClient ctx log w = (inr e, w1) ->
  newClient ctx log extractor w =
    (inr (Errorf "failed to create redis client: %w" [] e), w1).
Proof.
  intros Hprov. unfold newClient, mbind, M_bind. rewrite Hprov. reflexivity.
Qed.

(** The constructor after a successful provisioning. *)
Lemma newClient_succeeds (ctx0 : Ctx) (log : Logger)
    (extractor : Ctx -> option RunParams) (w w1 : World) (rc : RedisClient) :
  redisClient ctx0 log w = (inl rc, w1) ->
  let scope := w_next w1 in
  newClient ctx0 log extractor w =
    (inl {| ctx := scope :: ctx0; cancel := scope; wg := 2; log := log;
            extractor := extractor; rclient := rc;
            barrierCh := {| chan_id := S scope; chan_cap := 0 |};
            newSubCh := {| chan_id := S (S scope); chan_cap := 0 |} |},
     happened w1
       ([EvGo GBarrierWorker; EvGo GSubscriptionWorker] ++
        (if Enabled log DebugLevel
         then [EvGo (GSampler (1 * Second) rc (scope :: ctx0))] else []))
       3).
Proof.
  intros Hprov scope. unfold newClient, mbind at 1, M_bind at 1.
  rewrite Hprov. run_M. unfold happened.
  destruct (Enabled log DebugLevel); run_M; rewrite <- !app_assoc; reflexivity.
Qed.

(** The error of a failed construction wraps the error of provisioning. *)
Lemma newClient_error_wraps (ctx : Ctx) (log : Logger)
    (extractor : Ctx -> option RunParams) (w : World) (e : error) :
  fst (newClient ctx log extractor w) = inr e ->
  exists cause,
    fst (redisClient ctx log w) = inr cause /\ Unwrap e = Some cause.
Proof.
  destruct (redisClient ctx log w) as [[rc | cause] w1] eqn:Hprov.
  - rewrite (newClient_succeeds _ _ extractor _ _ _ Hprov). discriminate.
  - rewrite (newClient_fails _ _ extractor _ _ _ Hprov). simpl.
    intros [= <-]. eauto.
Qed.

(** Provisioning fails exactly in the ways listed. *)
Lemma redisClient_fails_iff (ctx : Ctx) (log : Logger) (w : World) :
  (exists e, fst (redisClient ctx log w) = inr e) <->
  malformed_port w \/ ping_fails ctx w.
Proof.
  unfold malformed_port, ping_fails.
  destruct (resolved_port w) as [port |] eqn:Hport.
  - rewrite (redisClient_provisions ctx log w port Hport).
    destruct (ping_answer w ctx (host_port (getenv w EnvRedisHost) port))
      as [err |] eqn:Hping; simpl; split.
    + intros _. right. exists port. rewrite Hping. split; [done | discriminate].
    + eauto.
    + intros [e He]. discriminate.
    + intros [Hbad | (port' & [= <-] & Hne)]; [discriminate |].
      rewrite Hping in Hne. contradiction.
  - split; [auto |]. intros _.
    unfold resolved_port in Hport.
    destruct (decide (getenv w EnvRedisPort = ""%string)) as [| Hset];
      [discriminate |].
    destruct (Atoi (getenv w EnvRedisPort)) as [p [err |]] eqn:Hatoi;
      [| discriminate].
    rewrite (redisClient_bad_port ctx log w err Hset); [simpl; eauto |].
    by rewrite Hatoi.
Qed.

(** C3. Whenever provisioning the connection fails (a malformed port, or a
    health check that reports an error, which is how an unreachable host
    and a context that is already done show), the constructor returns no
    client but one error wrapping the cause, launches no goroutine, and
    every pool it built has been closed by then. *)
Theorem C3_failed_provisioning (ctx : Ctx) (log : Logger)
    (extractor : Ctx -> option RunParams) (w : World) :
  malformed_port w \/ ping_fails ctx w ->
  exists cause w1,
    redisClient ctx log w = (inr cause, w1) /\
    newClient ctx log extractor w =
      (inr (Errorf "failed to create redis client: %w" [] cause), w1) /\
    launched_between w w1 = [] /\
    (forall k opts, (k, opts) ∈ opened (events_between w w1) ->
                    conn_closed (events_between w w1) k = true).
Proof.
  intros Hfail.
  assert (exists cause w1,
    redisClient ctx log w = (inr cause, w1) /\
    launched_between w w1 = [] /\
    (forall k opts, (k, opts) ∈ opened (events_between w w1) ->
                    conn_closed (events_between w w1) k = true))
    as (cause & w1 & Hprov & Hgo & Hclosed).
  { unfold launched_between.
    destruct (resolved_port w) as [port |] eqn:Hport.
    - destruct Hfail as [Hbad | (port' & Hport' & Hping)];
        [unfold malformed_port in Hbad; congruence |].
      assert (port' = port) as -> by congruence.
      pose proof (redisClient_provisions ctx log w port Hport) as Hrun.
      simpl in Hrun.
      destruct (ping_answer w ctx (host_port (getenv w EnvRedisHost) port))
        as [err |]; [| contradiction].
      eexists _, _. split; [exact Hrun |].
      rewrite happened_events. split; [reflexivity |].
      intros k opts Hk. simpl in Hk.
      apply list_elem_of_singleton in Hk. injection Hk as -> _.
      simpl. by rewrite bool_decide_eq_true_2.
    - unfold resolved_port in Hport.
      destruct (decide (getenv w EnvRedisPort = ""%string)) as [| Hset];
        [discriminate |].
      destruct (Atoi (getenv w EnvRedisPort)) as [p [err |]] eqn:Hatoi;
        [| discriminate].
      eexists _, w. split.
      + apply (redisClient_bad_port ctx log w err Hset). by rewrite Hatoi.
      + rewrite events_between_same. split; [reflexivity |].
        intros k opts Hk. by apply elem_of_nil in Hk. }
  exists cause, w1. split; [exact Hprov |].
  split; [by apply newClient_fails | auto].
Qed.

Lemma C3_failed_provisioning_witness :
  ping_fails Background w_unreachable /\
  exists cause w1,
    redisClient Background verbose w_unreachable = (inr cause, w1) /\
    newClient Background verbose no_run w_unreachable =
      (inr (Errorf "failed to create redis client: %w" [] cause), w1) /\
    launched_between w_unreachable w1 = [] /\
    (forall k opts, (k, opts) ∈ opened (events_between w_unreachable w1) ->
                    conn_closed (events_between w_unreachable w1) k = true).
Proof.
  assert (ping_fails Background w_unreachable) as Hfail.
  { exists 6379. split; [reflexivity | discriminate]. }
  split; [exact Hfail |].
  apply (C3_failed_provisioning Background verbose no_run w_unreachable).
  right. exact Hfail.
Defined.

(** The failing constructions of the sample worlds, run. *)
Example newClient_unreachable :
  fst (newClient Background verbose no_run w_unreachable) =
    inr (Errorf "failed to create redis client: %w" []
           (NetError "dial tcp: connection refused")) /\
  events_between w_unreachable
    (snd (newClient Background verbose no_run w_unreachable)) =
    [EvDebugw "trying redis host"
       [("host", LString "redis"); ("port", LInt 6379)];
     EvNewClient 0 (set_Addr DefaultRedisOpts "redis:6379");
     EvPing 0 Background;
     EvClose 0;
     EvErrorw "failed to ping redis host"
       [("host", LString "redis"); ("port", LInt 6379);
        ("error", LError (NetError "dial tcp: connection refused"))]]%string.
Proof. split; reflexivity. Qed.

Example newClient_bad_port :
  newClient Background verbose no_run w_bad_port =
    (inr (Errorf "failed to create redis client: %w" []
            (Errorf "failed to parse port '%q': %w" ["63x9"]
               (NumError "Atoi" "63x9" ErrSyntax))), w_bad_port)%string.
Proof. reflexivity. Qed.

(** A context that is done before the constructor runs: the health check
    fails with the context's error though the store is up, and the pool is
    closed again. *)
Example newClient_done_context :
  fst (newClient [0%nat] verbose no_run w_done_context) =
    inr (Errorf "failed to create redis client: %w" [] Canceled) /\
  events_between w_done_context
    (snd (newClient [0%nat] verbose no_run w_done_context)) =
    [EvDebugw "trying redis host"
       [("host", LString "redis"); ("port", LInt 6379)];
     EvNewClient 1 (set_Addr DefaultRedisOpts "redis:6379");
     EvPing 1 [0%nat];
     EvClose 1;
     EvErrorw "failed to ping redis host"
       [("host", LString "redis"); ("port", LInt 6379);
        ("error", LError Canceled)]]%string /\
  exists c, fst (newClient Background verbose no_run w_done_context) = inl c.
Proof. split; [| split]; [vm_compute; reflexivity .. | eexists; vm_compute; reflexivity]. Qed.

(** ** The host and the port *)

(** Against C5 as stated: with no host in the environment the construction
    succeeds, on the store of the local machine. *)
Lemma C5_missing_host_counterexample :
  w_env w_local !! EnvRedisHost = None /\
  exists c w',
    newClient Background quiet no_run w_local = (inl c, w') /\
    Addr (rc_opts (rclient c)) = ":6379"%string.
Proof.
  split; [reflexivity |].
  eexists _, _. split; [vm_compute; reflexivity | reflexivity].
Qed.

(** C5, amended. The host is not checked: when none is provided the
    address is the empty host with the resolved port, and the construction
    succeeds or fails with the health check of that address, sent under the
    context handed in. *)
Theorem C5_host_not_checked (ctx : Ctx) (log : Logger)
    (extractor : Ctx -> option RunParams) (w : World) (port : Z) :
  w_env w !! EnvRedisHost = None ->
  resolved_port w = Some port ->
  match ping_answer w ctx (":" ++ Itoa port)%string with
  | None =>
      exists c w',
        newClient ctx log extractor w = (inl c, w') /\
        Addr (rc_opts (rclient c)) = (":" ++ Itoa port)%string
  | Some e =>
      exists w',
        newClient ctx log extractor w =
          (inr (Errorf "failed to create redis client: %w" [] e), w')
  end.
Proof.
  intros Hhost Hport.
  pose proof (redisClient_provisions ctx log w port Hport) as Hrun.
  simpl in Hrun.
  assert (getenv w EnvRedisHost = ""%string) as Hempty.
  { unfold getenv. by rewrite Hhost. }
  rewrite Hempty in Hrun.
  change (host_port "" port) with (":" ++ Itoa port)%string in Hrun.
  destruct (ping_answer w ctx (":" ++ Itoa port)%string) as [e |].
  - eexists. eapply newClient_fails, Hrun.
  - eexists _, _. split; [eapply newClient_succeeds, Hrun | reflexivity].
Qed.

Lemma C5_host_not_checked_witness :
  w_env w_local !! EnvRedisHost = None /\
  resolved_port w_local = Some 6379 /\
  exists c w',
    newClient Background quiet no_run w_local = (inl c, w') /\
    Addr (rc_opts (rclient c)) = ":6379"%string.
Proof.
  split; [reflexivity |]. split; [reflexivity |].
  apply (C5_host_not_checked Background quiet no_run w_local 6379);
    reflexivity.
Defined.

Lemma parse_digits_rejects (s : string) :
  all_digits s = false -> forall n, exists kind, parse_digits s n = inr kind.
Proof.
  induction s as [| c rest IH]; intros Hbad n; simpl in *; [discriminate |].
  unfold is_digit in Hbad.
  destruct ((Z.of_nat (nat_of_ascii c) - 48 <? 0) ||
            (9 <? Z.of_nat (nat_of_ascii c) - 48)); simpl in Hbad; [eauto |].
  destruct (maxUint64 / 10 + 1 <=? n); [eauto |].
  destruct (maxUint64 <? n * 10 + (Z.of_nat (nat_of_ascii c) - 48));
    [eauto | by apply IH].
Qed.

(** [Atoi] rejects every string that does not spell an integer. *)
Lemma Atoi_rejects (s : string) :
  integer_syntax s = false ->
  exists kind, Atoi s = (0, Some (NumError "Atoi" s kind)).
Proof.
  unfold integer_syntax, Atoi. destruct s as [| c rest]; [eauto |].
  cbv zeta.
  destruct (bool_decide (c = "+"%char) || bool_decide (c = "-"%char)).
  - destruct rest as [| c' rest']; [eauto |]. intros Hbad.
    destruct (parse_digits_rejects _ Hbad 0) as [kind ->]. eauto.
  - intros Hbad. destruct (parse_digits_rejects _ Hbad 0) as [kind ->]. eauto.
Qed.

(** Against C6 as stated: [REDIS_PORT] is set, to the empty string, which
    spells no integer and which [Atoi] rejects; provisioning returns no
    error and builds the pool for the default port. *)
Lemma C6_empty_port_counterexample :
  w_env w_empty_port !! EnvRedisPort = Some ""%string /\
  integer_syntax "" = false /\
  Atoi "" = (0, Some (NumError "Atoi" "" ErrSyntax)) /\
  exists rc w',
    redisClient Background quiet w_empty_port = (inl rc, w') /\
    Addr (rc_opts rc) = "redis:6379"%string /\
    opened (events_between w_empty_port w') =
      [(0%nat, set_Addr DefaultRedisOpts "redis:6379")].
Proof.
  split; [reflexivity |]. split; [reflexivity |]. split; [reflexivity |].
  eexists _, _. split; [vm_compute; reflexivity |]. split; reflexivity.
Qed.

(** C6, amended. [REDIS_PORT] is read with [os.Getenv] and only tested
    against the empty string: unset or set to the empty string, the pool is
    built for the host and the default port 6379; set to a non-empty string
    that spells no integer, provisioning returns an error, builds no pool
    and leaves the world as it was. *)
Theorem C6_port_default_and_malformed (ctx : Ctx) (log : Logger) (w : World) :
  (w_env w !! EnvRedisPort = None \/ w_env w !! EnvRedisPort = Some ""%string ->
   resolved_port w = Some 6379 /\
   opened (events_between w (snd (redisClient ctx log w))) =
     [(w_next w,
       set_Addr DefaultRedisOpts (getenv w EnvRedisHost ++ ":6379")%string)]) /\
  (forall portStr,
     w_env w !! EnvRedisPort = Some portStr ->
     portStr <> ""%string ->
     integer_syntax portStr = false ->
     resolved_port w = None /\
     (exists e, redisClient ctx log w = (inr e, w)) /\
     opened (events_between w (snd (redisClient ctx log w))) = []).
Proof.
  split.
  - intros Hunset.
    assert (resolved_port w = Some 6379) as Hport.
    { unfold resolved_port, getenv. by destruct Hunset as [-> | ->]. }
    split; [exact Hport |].
    rewrite (redisClient_provisions ctx log w 6379 Hport).
    destruct (ping_answer w ctx (host_port (getenv w EnvRedisHost) 6379));
      simpl snd; rewrite happened_events; reflexivity.
  - intros portStr Hset Hne Hbad.
    assert (getenv w EnvRedisPort = portStr) as Hget.
    { unfold getenv. by rewrite Hset. }
    destruct (Atoi_rejects portStr Hbad) as [kind Hatoi].
    assert (redisClient ctx log w =
            (inr (Errorf "failed to parse port '%q': %w" [portStr]
                    (NumError "Atoi" portStr kind)), w)) as Hrun.
    { rewrite <- Hget at 1 2.
      apply redisClient_bad_port; rewrite Hget; [exact Hne |].
      by rewrite Hatoi. }
    split.
    { unfold resolved_port. rewrite Hget, Hatoi.
      by destruct (decide (portStr = ""%string)). }
    rewrite Hrun. split; [eauto |].
    simpl snd. by rewrite events_between_same.
Qed.

Lemma C6_port_default_and_malformed_witness :
  (w_env w_local !! EnvRedisPort = None /\
   opened (events_between w_local (snd (redisClient Background quiet w_local))) =
     [(0%nat, set_Addr DefaultRedisOpts ":6379")]) /\
  (w_env w_empty_port !! EnvRedisPort = Some ""%string /\
   opened (events_between w_empty_port
             (snd (redisClient Background quiet w_empty_port))) =
     [(0%nat, set_Addr DefaultRedisOpts "redis:6379")]) /\
  (w_env w_bad_port !! EnvRedisPort = Some "63x9"%string /\
   integer_syntax "63x9" = false /\
   (exists e, redisClient Background quiet w_bad_port = (inr e, w_bad_port)) /\
   opened (events_between w_bad_port
             (snd (redisClient Background quiet w_bad_port))) = []).
Proof.
  split; [| split].
  - split; [reflexivity |].
    apply (proj1 (C6_port_default_and_malformed Background quiet w_local)).
    left. reflexivity.
  - split; [reflexivity |].
    apply (proj1 (C6_port_default_and_malformed Background quiet w_empty_port)).
    right. reflexivity.
  - split; [reflexivity |]. split; [reflexivity |].
    apply (proj2 (C6_port_default_and_malformed Background quiet w_bad_port)
             "63x9"%string); [reflexivity | discriminate | reflexivity].
Defined.

(** A port that is set and spells an integer replaces the default. *)
Example redisClient_other_port :
  opened (events_between w_other_port
            (snd (redisClient Background quiet w_other_port))) =
    [(0%nat, set_Addr DefaultRedisOpts "redis:6380")].
Proof. reflexivity. Qed.

(** C7. The options a pool is built with are [DefaultRedisOpts] in every
    tuning field; only the address differs, set to the resolved host and
    port. *)
Theorem C7_options_are_defaults (ctx : Ctx) (log : Logger) (w : World)
    (k : nat) (opts : Options) :
  (k, opts) ∈ opened (events_between w (snd (redisClient ctx log w))) ->
  MinIdleConns opts = MinIdleConns DefaultRedisOpts /\
  PoolSize opts = PoolSize DefaultRedisOpts /\
  PoolTimeout opts = PoolTimeout DefaultRedisOpts /\
  MaxRetries opts = MaxRetries DefaultRedisOpts /\
  MinRetryBackoff opts = MinRetryBackoff DefaultRedisOpts /\
  MaxRetryBackoff opts = MaxRetryBackoff DefaultRedisOpts /\
  DialTimeout opts = DialTimeout DefaultRedisOpts /\
  ReadTimeout opts = ReadTimeout DefaultRedisOpts /\
  WriteTimeout opts = WriteTimeout DefaultRedisOpts /\
  IdleCheckFrequency opts = IdleCheckFrequency DefaultRedisOpts /\
  MaxConnAge opts = MaxConnAge DefaultRedisOpts /\
  opts = set_Addr DefaultRedisOpts (Addr opts) /\
  exists port, resolved_port w = Some port /\
               Addr opts = host_port (getenv w EnvRedisHost) port.
Proof.
  intros Hin.
  destruct (resolved_port w) as [port |] eqn:Hport.
  - rewrite (redisClient_provisions ctx log w port Hport) in Hin.
    assert (opts = set_Addr DefaultRedisOpts
                     (host_port (getenv w EnvRedisHost) port)) as ->.
    { destruct (ping_answer w ctx (host_port (getenv w EnvRedisHost) port));
        simpl snd in Hin; rewrite happened_events in Hin; simpl in Hin;
        apply list_elem_of_singleton in Hin; by injection Hin as _ ->. }
    repeat split; eauto.
  - exfalso. unfold resolved_port in Hport.
    destruct (decide (getenv w EnvRedisPort = ""%string)) as [| Hset];
      [discriminate |].
    destruct (Atoi (getenv w EnvRedisPort)) as [p [err |]] eqn:Hatoi;
      [| discriminate].
    rewrite (redisClient_bad_port ctx log w err Hset) in Hin;
      [| by rewrite Hatoi].
    simpl snd in Hin. rewrite events_between_same in Hin.
    by apply elem_of_nil in Hin.
Qed.

Lemma C7_options_are_defaults_witness :
  (0%nat, set_Addr DefaultRedisOpts "redis:6380") ∈
    opened (events_between w_other_port
              (snd (redisClient Background quiet w_other_port))) /\
  MinIdleConns (set_Addr DefaultRedisOpts "redis:6380") = 2 /\
  PoolSize (set_Addr DefaultRedisOpts "redis:6380") = 5.
Proof.
  assert ((0%nat, set_Addr DefaultRedisOpts "redis:6380") ∈
            opened (events_between w_other_port
                      (snd (redisClient Background quiet w_other_port))))
    as Hin by (apply list_elem_of_singleton; reflexivity).
  split; [exact Hin |].
  pose proof (C7_options_are_defaults Background quiet w_other_port _ _ Hin)
    as (Hidle & Hsize & _).
  split; [exact Hidle | exact Hsize].
Defined.

(** The constructor's outcome, read backwards. *)
Lemma newClient_inv (ctx0 : Ctx) (log : Logger)
    (extractor : Ctx -> option RunParams) (w w' : World) (c : DefaultClient) :
  newClient ctx0 log extractor w = (inl c, w') ->
  exists port,
    resolved_port w = Some port /\
    ping_answer w ctx0 (host_port (getenv w EnvRedisHost) port) = None /\
    let opts := set_Addr DefaultRedisOpts (host_port (getenv w EnvRedisHost) port) in
    let rc := {| rc_conn := w_next w; rc_opts := opts; rc_ctx := ctx0 |} in
    let scope := S (w_next w) in
    c = {| ctx := scope :: ctx0; cancel := scope; wg := 2; log := log;
           extractor := extractor; rclient := rc;
           barrierCh := {| chan_id := S scope; chan_cap := 0 |};
           newSubCh := {| chan_id := S (S scope); chan_cap := 0 |} |} /\
    events_between w w' =
      [EvDebugw "trying redis host"
         [("host", LString (getenv w EnvRedisHost)); ("port", LInt port)];
       EvNewClient (w_next w) opts;
       EvPing (w_next w) ctx0;
       EvDebugw "redis ping OK" [("opts", LOptions opts)];
       EvGo GBarrierWorker; EvGo GSubscriptionWorker]%string ++
      (if Enabled log DebugLevel
       then [EvGo (GSampler (1 * Second) rc (scope :: ctx0))] else []).
Proof.
  intros Hnew.
  destruct (redisClient ctx0 log w) as [[rc | e] w1] eqn:Hprov.
  - rewrite (newClient_succeeds ctx0 log extractor w w1 rc Hprov) in Hnew.
    destruct (resolved_port w) as [port |] eqn:Hport.
    + rewrite (redisClient_provisions ctx0 log w port Hport) in Hprov.
      exists port. split; [reflexivity |].
      destruct (ping_answer w ctx0 (host_port (getenv w EnvRedisHost) port))
        as [err |]; [discriminate |].
      split; [reflexivity |].
      injection Hprov as <- <-. injection Hnew as <- <-.
      split; [reflexivity |].
      unfold events_between, happened. simpl w_trace.
      rewrite <- app_assoc. by rewrite drop_app_length.
    + exfalso.
      assert (exists e, fst (redisClient ctx0 log w) = inr e) as [e He].
      { apply redisClient_fails_iff. by left. }
      rewrite Hprov in He. discriminate.
  - rewrite (newClient_fails ctx0 log extractor w w1 e Hprov) in Hnew.
    discriminate.
Qed.

(** ** The running client: invariants of every schedule *)

Lemma live_nonneg (pc : option manager_pc) : 0 <= live pc <= 1.
Proof. destruct pc as [[| |] |]; simpl; lia. Qed.

Lemma live_manager (who : Manager) (s : Sys) :
  0 <= live (manager who s) <= live (s_barrier s) + live (s_subscription s).
Proof.
  pose proof (live_nonneg (s_barrier s)).
  pose proof (live_nonneg (s_subscription s)).
  destruct who; simpl; lia.
Qed.

Lemma returned_ok_cons (c : DefaultClient) (net : Net) (s s' : Sys)
    (a : Action) (k : nat) (err : option error) :
  returned_ok c net s k err ->
  s_log s' = a :: s_log s ->
  is_store_call a = false ->
  (forall who, manager who s' <> None -> manager who s <> None) ->
  returned_ok c net s' k err.
Proof.
  intros (newer & older & Hlog & Herr & Hcancel & Hdone & Hnewer) Hlog' Ha Hm.
  exists (a :: newer), older. rewrite Hlog', Hlog.
  split; [reflexivity |]. split; [exact Herr |]. split; [exact Hcancel |].
  split; [intros who Hwho; apply Hdone, Hm, Hwho |].
  intros b [-> | Hb]%elem_of_cons; [exact Ha | by apply Hnewer].
Qed.

Lemma returned_ok_same (c : DefaultClient) (net : Net) (s s' : Sys)
    (k : nat) (err : option error) :
  returned_ok c net s k err ->
  s_log s' = s_log s ->
  (forall who, manager who s' <> None -> manager who s <> None) ->
  returned_ok c net s' k err.
Proof.
  intros (newer & older & Hlog & Herr & Hcancel & Hdone & Hnewer) Hlog' Hm.
  exists newer, older. rewrite Hlog', Hlog.
  split; [reflexivity |]. split; [exact Herr |]. split; [exact Hcancel |].
  split; [intros who Hwho; apply Hdone, Hm, Hwho | exact Hnewer].
Qed.

Lemma filter_is_returned_insert (calls : list close_pc) (k : nat)
    (old new : close_pc) :
  calls !! k = Some old ->
  Z.of_nat (length (List.filter is_returned (<[k := new]> calls))) =
  Z.of_nat (length (List.filter is_returned calls))
  + (if is_returned new then 1 else 0) - (if is_returned old then 1 else 0).
Proof.
  revert k. induction calls as [| pc calls IH]; intros k Hk; [done |].
  destruct k as [| k]; simpl in *.
  - injection Hk as ->. destruct (is_returned old), (is_returned new);
      simpl; lia.
  - specialize (IH k Hk). destruct (is_returned pc); simpl; lia.
Qed.

Lemma filter_is_returned_snoc (calls : list close_pc) :
  List.filter is_returned (calls ++ [ClEntered]) = List.filter is_returned calls.
Proof. rewrite List.filter_app. simpl. by rewrite app_nil_r. Qed.

(** The actions that neither close the pool nor reach the store leave the
    invariant alone when they are logged. *)
Lemma Inv_cancel_outside (c : DefaultClient) (net : Net) (s : Sys) (scope : nat) :
  Inv c net s ->
  Inv c net (record (ActCancel scope)
               (set_cancelled ({[scope]} ∪ s_cancelled s) s)).
Proof.
  intros [Hwg Hex Hcan Hwait Hclosed Hret Hh Hcount Hfirst].
  split; simpl.
  - exact Hwg.
  - intros who Hwho. apply elem_of_cons. right. apply Hex.
    by destruct who.
  - intros k pc Hk Hpc. destruct (Hcan k pc Hk Hpc) as [Hin Hlog].
    split; [apply elem_of_union; by right | by apply elem_of_cons; right].
  - exact Hwait.
  - exact Hclosed.
  - intros k err Hk.
    eapply returned_ok_cons; [by apply Hret | reflexivity | reflexivity |].
    by intros [].
  - intros who h [Heq | Hin]%elem_of_cons; [discriminate | by eapply Hh].
  - exact Hcount.
  - exact Hfirst.
Qed.

Lemma Inv_call_close (c : DefaultClient) (net : Net) (s : Sys) :
  Inv c net s -> Inv c net (set_calls (s_calls s ++ [ClEntered]) s).
Proof.
  intros [Hwg Hex Hcan Hwait Hclosed Hret Hh Hcount Hfirst].
  assert (forall k pc, (s_calls s ++ [ClEntered]) !! k = Some pc ->
                       pc <> ClEntered -> s_calls s !! k = Some pc) as Hold.
  { intros k pc Hk Hpc. apply lookup_snoc_Some in Hk as [[_ Hk] | [_ Hk]];
      [exact Hk | congruence]. }
  split; simpl.
  - exact Hwg.
  - intros who Hwho. apply Hex. by destruct who.
  - intros k pc Hk Hpc. eapply Hcan; eauto.
  - intros k pc Hk Hpc Hpc'. eapply Hwait; eauto.
  - exact Hclosed.
  - intros k err Hk. apply Hold in Hk; [| discriminate].
    eapply returned_ok_same; [by apply Hret | reflexivity |]. by intros [].
  - exact Hh.
  - by rewrite filter_is_returned_snoc.
  - intros i j e1 e2 Hij Hi Hj.
    apply Hold in Hi; [| discriminate]. apply Hold in Hj; [| discriminate].
    eauto.
Qed.

(** [c.cancel()], the first statement of [Close]. *)
Lemma Inv_close_cancel (c : DefaultClient) (net : Net) (s : Sys) (call : nat) :
  Inv c net s ->
  s_calls s !! call = Some ClEntered ->
  Inv c net (record (ActCancel (cancel c))
               (set_calls (<[call := ClCancelled]> (s_calls s))
                  (set_cancelled ({[cancel c]} ∪ s_cancelled s) s))).
Proof.
  intros [Hwg Hex Hcan Hwait Hclosed Hret Hh Hcount Hfirst] Hcall.
  assert (forall k pc, <[call := ClCancelled]> (s_calls s) !! k = Some pc ->
                       pc <> ClCancelled -> s_calls s !! k = Some pc) as Hold.
  { intros k pc Hk Hpc.
    apply list_lookup_insert_Some in Hk as [(_ & <- & _) | [_ Hk]];
      [congruence | exact Hk]. }
  split; simpl.
  - exact Hwg.
  - intros who Hwho. apply elem_of_cons. right. apply Hex. by destruct who.
  - intros k pc Hk Hpc.
    split; [apply elem_of_union; left; by apply elem_of_singleton
           | apply elem_of_cons; by left].
  - intros k pc Hk Hpc Hpc'. apply (Hwait k pc); auto.
  - exact Hclosed.
  - intros k err Hk. apply Hold in Hk; [| discriminate].
    eapply returned_ok_cons; [by apply Hret | reflexivity | reflexivity |].
    by intros [].
  - intros who h [Heq | Hin]%elem_of_cons; [discriminate | by eapply Hh].
  - apply Nat2Z.inj.
    rewrite (filter_is_returned_insert _ _ ClEntered ClCancelled Hcall).
    simpl. lia.
  - intros i j e1 e2 Hij Hi Hj.
    apply Hold in Hi; [| discriminate]. apply Hold in Hj; [| discriminate].
    eauto.
Qed.

(** [c.wg.Wait()], which returns once the counter is zero. *)
Lemma Inv_close_wait (c : DefaultClient) (net : Net) (s : Sys) (call : nat) :
  Inv c net s ->
  s_calls s !! call = Some ClCancelled ->
  s_wg s = 0 ->
  Inv c net (set_calls (<[call := ClWaited]> (s_calls s)) s).
Proof.
  intros [Hwg Hex Hcan Hwait Hclosed Hret Hh Hcount Hfirst] Hcall Hzero.
  assert (forall k pc, <[call := ClWaited]> (s_calls s) !! k = Some pc ->
                       pc <> ClWaited -> s_calls s !! k = Some pc) as Hold.
  { intros k pc Hk Hpc.
    apply list_lookup_insert_Some in Hk as [(_ & <- & _) | [_ Hk]];
      [congruence | exact Hk]. }
  split; simpl.
  - exact Hwg.
  - intros who Hwho. apply Hex. by destruct who.
  - intros k pc Hk Hpc. eapply (Hcan call ClCancelled); [exact Hcall | discriminate].
  - intros k pc Hk Hpc Hpc'. exact Hzero.
  - exact Hclosed.
  - intros k err Hk. apply Hold in Hk; [| discriminate].
    eapply returned_ok_same; [by apply Hret | reflexivity |]. by intros [].
  - exact Hh.
  - apply Nat2Z.inj.
    rewrite (filter_is_returned_insert _ _ ClCancelled ClWaited Hcall).
    simpl. lia.
  - intros i j e1 e2 Hij Hi Hj.
    apply Hold in Hi; [| discriminate]. apply Hold in Hj; [| discriminate].
    eauto.
Qed.

Lemma returned_ok_closed (c : DefaultClient) (net : Net) (s : Sys)
    (k : nat) (err : option error) :
  returned_ok c net s k err -> existsb is_conn_close (s_log s) = true.
Proof.
  intros (newer & older & -> & _).
  rewrite existsb_app. simpl. by rewrite orb_true_r.
Qed.

(** With the counter at zero every manager that was started has exited. *)
Lemma joined_managers (c : DefaultClient) (net : Net) (s : Sys) (who : Manager) :
  Inv c net s -> s_wg s = 0 -> manager who s <> None ->
  manager who s = Some MgrExited.
Proof.
  intros [Hwg _ _ _ _ _ _ _ _] Hzero Hwho.
  pose proof (live_manager who s) as Hlive. rewrite <- Hwg, Hzero in Hlive.
  destruct (manager who s) as [[| |] |]; simpl in Hlive;
    [lia | lia | reflexivity | contradiction].
Qed.

(** [return c.rclient.Close()], the last statement of [Close]. *)
Lemma Inv_close_conn (c : DefaultClient) (net : Net) (s : Sys) (call : nat) :
  Inv c net s ->
  s_calls s !! call = Some ClWaited ->
  let err := close_answer net (s_log s) in
  Inv c net (record (ActCloseReturn call err)
               (record (ActConnClose (rc_conn (rclient c)) err)
                  (set_calls (<[call := ClReturned err]> (s_calls s)) s))).
Proof.
  intros HInv Hcall err.
  pose proof HInv as [Hwg Hex Hcan Hwait Hclosed Hret Hh Hcount Hfirst].
  assert (s_wg s = 0) as Hzero.
  { apply (Hwait call ClWaited Hcall); discriminate. }
  destruct (Hcan call ClWaited Hcall) as [Hcancelled Hlogged]; [discriminate |].
  assert (forall k e, <[call := ClReturned err]> (s_calls s) !! k =
                        Some (ClReturned e) ->
                      k = call /\ e = err \/
                      k <> call /\ s_calls s !! k = Some (ClReturned e)) as Hold.
  { intros k e Hk.
    apply list_lookup_insert_Some in Hk as [(<- & [= <-] & _) | [Hne Hk]];
      [by left | right; split; [congruence | exact Hk]]. }
  split; simpl.
  - exact Hwg.
  - intros who Hwho. apply elem_of_cons. right. apply elem_of_cons. right.
    apply Hex. by destruct who.
  - intros k pc Hk Hpc. split; [exact Hcancelled |].
    apply elem_of_cons. right. by apply elem_of_cons; right.
  - intros k pc Hk Hpc Hpc'. exact Hzero.
  - intros _. exact Hzero.
  - intros k e Hk. apply Hold in Hk as [[-> ->] | [Hne Hk]].
    + exists [], (s_log s). simpl. split; [reflexivity |].
      split; [reflexivity |]. split; [exact Hlogged |].
      split; [| intros a Ha; by apply elem_of_nil in Ha].
      intros who Hwho.
      apply Hex, (joined_managers c net); [exact HInv | exact Hzero |].
      by destruct who.
    + destruct (Hret k e Hk) as (newer & older & Hlog & He & Hc & Hd & Hn).
      exists (ActCloseReturn call err
                :: ActConnClose (rc_conn (rclient c)) err :: newer), older.
      simpl. rewrite Hlog. split; [reflexivity |]. split; [exact He |].
      split; [exact Hc |]. split.
      * intros who Hwho. apply Hd. by destruct who.
      * intros a [-> | [-> | Ha]%elem_of_cons]%elem_of_cons;
          [reflexivity | reflexivity | by apply Hn].
  - intros who h [Heq | [Heq | Hin]%elem_of_cons]%elem_of_cons;
      [discriminate | discriminate | by eapply Hh].
  - apply Nat2Z.inj.
    rewrite (filter_is_returned_insert _ _ ClWaited (ClReturned err) Hcall).
    simpl. lia.
  - intros i j e1 e2 Hij Hi Hj.
    apply Hold in Hi as [[-> ->] | [Hi' Hi]];
      apply Hold in Hj as [[-> ->] | [Hj' Hj]].
    + contradiction.
    + left. unfold err, close_answer.
      by rewrite (returned_ok_closed c net s j e2 (Hret j e2 Hj)).
    + right. unfold err, close_answer.
      by rewrite (returned_ok_closed c net s i e1 (Hret i e1 Hi)).
    + eauto.
Qed.

(** A manager that has not exited keeps the counter above zero. *)
Lemma live_manager_positive (c : DefaultClient) (net : Net) (s : Sys)
    (who : Manager) (pc : manager_pc) :
  Inv c net s -> manager who s = Some pc -> pc <> MgrExited -> 1 <= s_wg s.
Proof.
  intros [Hwg _ _ _ _ _ _ _ _] Hwho Hpc.
  pose proof (live_manager who s) as Hlive. rewrite <- Hwg, Hwho in Hlive.
  destruct pc; simpl in Hlive; [lia | lia | contradiction].
Qed.

Lemma Inv_manager_call (c : DefaultClient) (net : Net) (s : Sys) (who : Manager) :
  Inv c net s ->
  manager who s = Some MgrRunning ->
  Inv c net (record (ActStoreCall who (rclient c)) s).
Proof.
  intros HInv Hwho.
  pose proof HInv as [Hwg Hex Hcan Hwait Hclosed Hret Hh Hcount Hfirst].
  assert (1 <= s_wg s) as Hpos.
  { by apply (live_manager_positive c net s who MgrRunning). }
  split; simpl.
  - exact Hwg.
  - intros who' Hwho'. apply elem_of_cons. right. apply Hex. by destruct who'.
  - intros k pc Hk Hpc. destruct (Hcan k pc Hk Hpc) as [Hin Hlog].
    split; [exact Hin | by apply elem_of_cons; right].
  - exact Hwait.
  - exact Hclosed.
  - intros k err Hk. exfalso.
    assert (s_wg s = 0) by (apply (Hwait k _ Hk); discriminate). lia.
  - intros who' h [[= _ <-] | Hin]%elem_of_cons; [reflexivity | by eapply Hh].
  - exact Hcount.
  - exact Hfirst.
Qed.

Lemma Inv_manager_done (c : DefaultClient) (net : Net) (s : Sys) (who : Manager) :
  Inv c net s ->
  manager who s = Some MgrRunning ->
  Inv c net (set_manager who MgrStopping s).
Proof.
  intros [Hwg Hex Hcan Hwait Hclosed Hret Hh Hcount Hfirst] Hwho.
  split; simpl.
  - rewrite Hwg. destruct who; simpl in Hwho; rewrite Hwho; reflexivity.
  - intros who' Hwho'. apply Hex.
    destruct who, who'; simpl in *; congruence.
  - exact Hcan.
  - exact Hwait.
  - exact Hclosed.
  - intros k err Hk.
    eapply returned_ok_same; [by apply Hret | reflexivity |].
    intros who' Hwho'. destruct who, who'; simpl in *; congruence.
  - exact Hh.
  - exact Hcount.
  - exact Hfirst.
Qed.

(** The deferred [c.wg.Done()] of a manager does not panic. *)
Lemma Inv_manager_exit (c : DefaultClient) (net : Net) (s : Sys) (who : Manager) :
  Inv c net s ->
  manager who s = Some MgrStopping ->
  wg_Done s = Ok (set_wg (s_wg s - 1) s) /\
  Inv c net (record (ActWgDone who)
               (set_manager who MgrExited (set_wg (s_wg s - 1) s))).
Proof.
  intros HInv Hwho.
  pose proof HInv as [Hwg Hex Hcan Hwait Hclosed Hret Hh Hcount Hfirst].
  assert (1 <= s_wg s) as Hpos.
  { by apply (live_manager_positive c net s who MgrStopping). }
  split.
  { unfold wg_Done. by replace (s_wg s - 1 <? 0) with false by lia. }
  split; simpl.
  - rewrite Hwg. destruct who; simpl in Hwho; rewrite Hwho; simpl; lia.
  - intros who' Hwho'. apply elem_of_cons.
    destruct who, who'; simpl in *; auto.
  - intros k pc Hk Hpc. destruct (Hcan k pc Hk Hpc) as [Hin Hlog].
    split; [exact Hin | by apply elem_of_cons; right].
  - intros k pc Hk Hpc Hpc'. exfalso.
    assert (s_wg s = 0) by (by apply (Hwait k pc)). lia.
  - intros Hc. exfalso. apply Hclosed in Hc. lia.
  - intros k err Hk. exfalso.
    assert (s_wg s = 0) by (apply (Hwait k _ Hk); discriminate). lia.
  - intros who' h [Heq | Hin]%elem_of_cons; [discriminate | by eapply Hh].
  - exact Hcount.
  - exact Hfirst.
Qed.

Lemma Inv_sampler_pc (c : DefaultClient) (net : Net) (s : Sys) (pc : sampler_pc) :
  Inv c net s -> Inv c net (set_sampler_pc pc s).
Proof.
  intros [Hwg Hex Hcan Hwait Hclosed Hret Hh Hcount Hfirst].
  split; simpl.
  - exact Hwg.
  - intros who Hwho. apply Hex. by destruct who.
  - exact Hcan.
  - exact Hwait.
  - exact Hclosed.
  - intros k err Hk.
    eapply returned_ok_same; [by apply Hret | reflexivity |]. by intros [].
  - exact Hh.
  - exact Hcount.
  - exact Hfirst.
Qed.

Lemma Inv_pool_stats (c : DefaultClient) (net : Net) (s : Sys) (conn : nat) :
  Inv c net s -> Inv c net (record (ActPoolStats conn) s).
Proof.
  intros [Hwg Hex Hcan Hwait Hclosed Hret Hh Hcount Hfirst].
  split; simpl.
  - exact Hwg.
  - intros who Hwho. apply elem_of_cons. right. apply Hex. by destruct who.
  - intros k pc Hk Hpc. destruct (Hcan k pc Hk Hpc) as [Hin Hlog].
    split; [exact Hin | by apply elem_of_cons; right].
  - exact Hwait.
  - exact Hclosed.
  - intros k err Hk.
    eapply returned_ok_cons; [by apply Hret | reflexivity | reflexivity |].
    by intros [].
  - intros who h [Heq | Hin]%elem_of_cons; [discriminate | by eapply Hh].
  - exact Hcount.
  - exact Hfirst.
Qed.

Lemma same_cast_refl (s : Sys) : same_cast s s.
Proof. by repeat split. Qed.

Lemma same_cast_trans (s1 s2 s3 : Sys) :
  same_cast s1 s2 -> same_cast s2 s3 -> same_cast s1 s3.
Proof.
  intros (Hm & Hc & Hr & Ht & Hs) (Hm' & Hc' & Hr' & Ht' & Hs').
  split; [intros who; by rewrite Hm', Hm |].
  split; [congruence |]. split; [congruence |]. split; [congruence |].
  by etrans.
Qed.

Lemma same_cast_set_manager (s : Sys) (who : Manager) (pc : manager_pc) :
  manager who s <> None -> same_cast s (set_manager who pc s).
Proof.
  intros Hwho. split; [| by repeat split].
  intros who'. destruct who, who'; simpl in *; split; congruence.
Qed.

Lemma same_cast_set_sampler_pc (s : Sys) (pc : sampler_pc) :
  same_cast s (set_sampler_pc pc s).
Proof.
  split; [by intros [] |]. simpl.
  destruct (s_sampler s); by repeat split.
Qed.

(** One move keeps the invariant, and never panics. *)
Lemma step_Inv (c : DefaultClient) (net : Net) (l : Label) (s : Sys)
    (r : result Sys) :
  Inv c net s ->
  step c net l s = Some r ->
  exists s', r = Ok s' /\ Inv c net s' /\ same_cast s s'.
Proof.
  assert (forall s1 s2 : Sys,
            s_barrier s2 = s_barrier s1 ->
            s_subscription s2 = s_subscription s1 ->
            s_sampler s2 = s_sampler s1 ->
            s_cancelled s1 ⊆ s_cancelled s2 ->
            same_cast s1 s2) as Hsame.
  { intros s1 s2 Hb Hs Hsmp Hc.
    split; [intros []; simpl; by rewrite ?Hb, ?Hs |].
    rewrite Hsmp. by repeat split. }
  intros HInv Hstep. destruct l as [scope | | call | who | who | who | | |];
    simpl in Hstep.
  - destruct (decide (scope = cancel c)); [discriminate |].
    injection Hstep as <-. eexists. split; [reflexivity |].
    split; [by apply Inv_cancel_outside |].
    apply Hsame; simpl; set_solver.
  - injection Hstep as <-. eexists. split; [reflexivity |].
    split; [by apply Inv_call_close | by apply Hsame].
  - unfold Close_step in Hstep.
    destruct (s_calls s !! call) as [[| | | err] |] eqn:Hcall;
      try discriminate.
    + injection Hstep as <-. eexists. split; [reflexivity |].
      split; [by apply Inv_close_cancel |].
      apply Hsame; simpl; set_solver.
    + destruct (decide (s_wg s = 0)) as [Hzero |]; [| discriminate].
      injection Hstep as <-. eexists. split; [reflexivity |].
      split; [by apply Inv_close_wait | by apply Hsame].
    + injection Hstep as <-. eexists. split; [reflexivity |].
      split; [by apply Inv_close_conn | by apply Hsame].
  - unfold manager_step in Hstep.
    destruct (manager who s) as [[| |] |] eqn:Hwho; try discriminate.
    injection Hstep as <-. eexists. split; [reflexivity |].
    split; [by apply Inv_manager_call | by apply Hsame].
  - unfold manager_step in Hstep.
    destruct (manager who s) as [[| |] |] eqn:Hwho; try discriminate.
    destruct (ctx_done (s_cancelled s) (ctx c)); [| discriminate].
    injection Hstep as <-. eexists. split; [reflexivity |].
    split; [by apply Inv_manager_done |].
    apply same_cast_set_manager. congruence.
  - unfold manager_step in Hstep.
    destruct (manager who s) as [[| |] |] eqn:Hwho; try discriminate.
    destruct (Inv_manager_exit c net s who HInv Hwho) as [Hdone HInv'].
    rewrite Hdone in Hstep. injection Hstep as <-.
    eexists. split; [reflexivity |]. split; [exact HInv' |].
    apply (same_cast_set_manager (set_wg (s_wg s - 1) s)). simpl.
    destruct who; simpl in *; congruence.
  - unfold sampler_step in Hstep.
    destruct (s_sampler s) as [smp |]; [| discriminate].
    destruct (smp_pc smp); try discriminate.
    injection Hstep as <-. eexists. split; [reflexivity |].
    split; [by apply Inv_sampler_pc | apply same_cast_set_sampler_pc].
  - unfold sampler_step in Hstep.
    destruct (s_sampler s) as [smp |]; [| discriminate].
    destruct (smp_pc smp); try discriminate.
    injection Hstep as <-. eexists. split; [reflexivity |].
    split; [by apply Inv_pool_stats, Inv_sampler_pc |].
    apply (same_cast_set_sampler_pc s SmpSelect).
  - unfold sampler_step in Hstep.
    destruct (s_sampler s) as [smp |]; [| discriminate].
    destruct (smp_pc smp); try discriminate.
    destruct (ctx_done (s_cancelled s) (smp_ctx smp)); [| discriminate].
    injection Hstep as <-. eexists. split; [reflexivity |].
    split; [by apply Inv_sampler_pc | apply same_cast_set_sampler_pc].
Qed.

(** Every schedule keeps the invariant, and never panics. *)
Lemma run_Inv (c : DefaultClient) (net : Net) (ls : list Label) :
  forall (s : Sys) (r : result Sys),
    Inv c net s ->
    run c net ls s = Some r ->
    exists s', r = Ok s' /\ Inv c net s' /\ same_cast s s'.
Proof.
  induction ls as [| l ls IH]; intros s r HInv Hrun; simpl in Hrun.
  - injection Hrun as <-. exists s. split; [reflexivity |].
    split; [exact HInv | apply same_cast_refl].
  - destruct (step c net l s) as [r1 |] eqn:Hstep; [| discriminate].
    destruct (step_Inv c net l s r1 HInv Hstep) as (s1 & -> & HInv1 & Hcast1).
    destruct (IH s1 r HInv1 Hrun) as (s' & -> & HInv' & Hcast').
    exists s'. split; [reflexivity |]. split; [exact HInv' |].
    by eapply same_cast_trans.
Qed.

Lemma start_manager_running (who : Manager) (gs : list Goroutine) :
  start_manager who gs <> Some MgrExited.
Proof. unfold start_manager. by destruct (existsb _ gs). Qed.

Lemma init_Inv (c : DefaultClient) (net : Net) (gs : list Goroutine)
    (cancelled : gset nat) :
  wg c = live (start_manager Barrier gs) + live (start_manager Subscription gs) ->
  Inv c net (init_sys c gs cancelled).
Proof.
  intros Hwg. split; simpl.
  - exact Hwg.
  - intros who Hwho. exfalso.
    destruct who; simpl in Hwho; by apply start_manager_running in Hwho.
  - intros k pc Hk. by rewrite lookup_nil in Hk.
  - intros k pc Hk. by rewrite lookup_nil in Hk.
  - discriminate.
  - intros k err Hk. by rewrite lookup_nil in Hk.
  - intros who h Hin. by apply elem_of_nil in Hin.
  - reflexivity.
  - intros i j e1 e2 _ Hi. by rewrite lookup_nil in Hi.
Qed.

(** The system a successful construction starts. *)
Lemma newClient_init (ctx0 : Ctx) (log : Logger)
    (extractor : Ctx -> option RunParams) (w w' : World) (c : DefaultClient)
    (cancelled : gset nat) :
  newClient ctx0 log extractor w = (inl c, w') ->
  init_sys c (launched_between w w') cancelled =
    {| s_cancelled := cancelled;
       s_wg := 2;
       s_barrier := Some MgrRunning;
       s_subscription := Some MgrRunning;
       s_sampler :=
         if Enabled log DebugLevel
         then Some {| smp_tick := 1 * Second; smp_rclient := rclient c;
                      smp_ctx := ctx c; smp_pc := SmpSelect |}
         else None;
       s_calls := [];
       s_log := [] |}.
Proof.
  intros Hnew.
  destruct (newClient_inv _ _ _ _ _ _ Hnew) as (port & _ & _ & -> & Hevs).
  unfold init_sys, launched_between. rewrite Hevs.
  destruct (Enabled log DebugLevel); reflexivity.
Qed.

Lemma newClient_Inv (ctx0 : Ctx) (log : Logger)
    (extractor : Ctx -> option RunParams) (w w' : World) (c : DefaultClient)
    (net : Net) (cancelled : gset nat) :
  newClient ctx0 log extractor w = (inl c, w') ->
  Inv c net (init_sys c (launched_between w w') cancelled).
Proof.
  intros Hnew. apply init_Inv.
  pose proof (newClient_init _ _ _ _ _ _ cancelled Hnew) as Hinit.
  apply (f_equal s_barrier) in Hinit as Hb.
  apply (f_equal s_subscription) in Hinit as Hs.
  apply (f_equal s_wg) in Hinit as Hwg.
  simpl in Hb, Hs, Hwg. rewrite Hb, Hs, Hwg. reflexivity.
Qed.

Lemma existsb_rev_log (f : Action -> bool) (l : list Action) :
  existsb f (rev l) = existsb f l.
Proof.
  induction l as [| a l IH]; [reflexivity |].
  simpl. rewrite existsb_app, IH. simpl.
  rewrite orb_false_r. apply orb_comm.
Qed.

Lemma elem_of_rev_log (a : Action) (l : list Action) : a ∈ rev l <-> a ∈ l.
Proof. rewrite !list_elem_of_In. symmetry. apply in_rev. Qed.

(** A returned call of [Close], read in the order things happened. *)
Lemma returned_ok_history (c : DefaultClient) (net : Net) (s : Sys)
    (call : nat) (err : option error) :
  returned_ok c net s call err ->
  exists before after,
    history s = before ++ [ActConnClose (rc_conn (rclient c)) err;
                           ActCloseReturn call err] ++ after /\
    err = close_answer net before /\
    ActCancel (cancel c) ∈ before /\
    (forall who, manager who s <> None -> ActWgDone who ∈ before) /\
    (forall a, a ∈ after -> is_store_call a = false).
Proof.
  intros (newer & older & Hlog & Herr & Hcancel & Hdone & Hnewer).
  exists (rev older), (rev newer). unfold history. rewrite Hlog.
  split; [rewrite !rev_app_distr; simpl; by rewrite <- !app_assoc |].
  split; [unfold close_answer; by rewrite existsb_rev_log |].
  split; [by apply elem_of_rev_log |].
  split.
  - intros who Hwho. by apply elem_of_rev_log, Hdone.
  - intros a Ha. by apply Hnewer, elem_of_rev_log.
Qed.

Example newClient_sample (log : Logger) :
  fst (newClient Background log no_run w_other_port) = inl (sample_client log).
Proof.
  unfold newClient, mbind, M_bind. simpl.
  destruct (Enabled log DebugLevel); reflexivity.
Qed.

Lemma newClient_sample_run (log : Logger) :
  newClient Background log no_run w_other_port =
    (inl (sample_client log), w_started log).
Proof.
  unfold w_started. rewrite <- newClient_sample.
  by destruct (newClient Background log no_run w_other_port).
Qed.

(** ** [Close] *)

(** Against C2 as stated: [Close] has returned, the sampler goroutine has
    not, and reads the pool statistics once more. *)
Lemma C2_sampler_not_joined_counterexample :
  exists s,
    run (sample_client verbose) net_up
      (close_once ++ [LSamplerTick; LSamplerLog])
      (init_sys (sample_client verbose)
         (launched_between w_other_port (w_started verbose)) ∅) = Some (Ok s) /\
    s_calls s = [ClReturned None] /\
    smp_pc <$> s_sampler s = Some SmpSelect /\
    history s =
      [ActCancel 1; ActWgDone Barrier; ActWgDone Subscription;
       ActConnClose 0 None; ActCloseReturn 0 None; ActPoolStats 0].
Proof.
  eexists. split; [vm_compute; reflexivity |]. repeat split.
Qed.

(** C2, amended. [Close] cancels the client's context, waits on the wait
    group, which the constructor set to the two manager goroutines, and
    only then closes the connection, returning the error of that close:
    when a call of [Close] has returned, the cancellation and the exit of
    both managers lie before its close of the connection, and no command
    reaches the store after it.  The sampler is not in the wait group: by
    then its context is done, which is all [Close] does about it. *)
Theorem C2_close_joins_managers (ctx0 : Ctx) (log : Logger)
    (extractor : Ctx -> option RunParams) (w w' : World) (c : DefaultClient)
    (net : Net) (cancelled : gset nat) (ls : list Label) (r : result Sys) :
  newClient ctx0 log extractor w = (inl c, w') ->
  run c net ls (init_sys c (launched_between w w') cancelled) = Some r ->
  exists s,
    r = Ok s /\
    forall call err,
      s_calls s !! call = Some (ClReturned err) ->
      cancel c ∈ s_cancelled s /\
      s_wg s = 0 /\
      s_barrier s = Some MgrExited /\
      s_subscription s = Some MgrExited /\
      (forall smp, s_sampler s = Some smp ->
                   ctx_done (s_cancelled s) (smp_ctx smp) = true) /\
      exists before after,
        history s = before ++ [ActConnClose (rc_conn (rclient c)) err;
                               ActCloseReturn call err] ++ after /\
        err = close_answer net before /\
        ActCancel (cancel c) ∈ before /\
        ActWgDone Barrier ∈ before /\
        ActWgDone Subscription ∈ before /\
        (forall a, a ∈ after -> is_store_call a = false).
Proof.
  intros Hnew Hrun.
  pose proof (newClient_Inv _ _ _ _ _ _ net cancelled Hnew) as HInv0.
  destruct (run_Inv c net ls _ r HInv0 Hrun)
    as (s & -> & HInv & Hm & Hctx & _ & _ & _).
  exists s. split; [reflexivity |]. intros call err Hcall.
  pose proof (newClient_init _ _ _ _ _ _ cancelled Hnew) as Hinit.
  rewrite Hinit in Hm, Hctx. simpl in Hm, Hctx.
  destruct (inv_cancel _ _ _ HInv call _ Hcall) as [Hcancelled _];
    [discriminate |].
  assert (s_wg s = 0) as Hzero.
  { apply (inv_waited _ _ _ HInv call _ Hcall); discriminate. }
  assert (forall who, manager who s <> None) as Hstarted.
  { intros who Hnone. apply Hm in Hnone. by destruct who. }
  split; [exact Hcancelled |]. split; [exact Hzero |].
  split; [apply (joined_managers c net s Barrier HInv Hzero (Hstarted Barrier)) |].
  split; [apply (joined_managers c net s Subscription HInv Hzero
                   (Hstarted Subscription)) |].
  split.
  - intros smp Hsmp. rewrite Hsmp in Hctx. simpl in Hctx.
    destruct (Enabled log DebugLevel); [| discriminate].
    injection Hctx as ->.
    destruct (newClient_inv _ _ _ _ _ _ Hnew) as (port & _ & _ & Hc & _).
    rewrite Hc in *. simpl in *. by rewrite bool_decide_eq_true_2.
  - destruct (returned_ok_history c net s call err
                (inv_returned _ _ _ HInv call err Hcall))
      as (before & after & Hhist & Herr & Hcancel & Hdone & Hafter).
    exists before, after. auto 10.
Qed.

Lemma C2_close_joins_managers_witness :
  exists s,
    run (sample_client verbose) net_up close_once
      (init_sys (sample_client verbose)
         (launched_between w_other_port (w_started verbose)) ∅) = Some (Ok s) /\
    s_calls s !! 0%nat = Some (ClReturned None) /\
    s_barrier s = Some MgrExited /\
    s_subscription s = Some MgrExited.
Proof.
  destruct (run (sample_client verbose) net_up close_once
              (init_sys (sample_client verbose)
                 (launched_between w_other_port (w_started verbose)) ∅))
    as [r |] eqn:Hrun; [| vm_compute in Hrun; discriminate].
  destruct (C2_close_joins_managers Background verbose no_run w_other_port
              (w_started verbose) (sample_client verbose) net_up ∅
              close_once r (newClient_sample_run verbose) Hrun)
    as (s & -> & Hclose).
  exists s. split; [reflexivity |].
  assert (s_calls s !! 0%nat = Some (ClReturned None)) as Hcall.
  { vm_compute in Hrun. injection Hrun as <-. reflexivity. }
  split; [exact Hcall |].
  destruct (Hclose 0%nat None Hcall) as (_ & _ & Hb & Hs & _).
  split; [exact Hb | exact Hs].
Defined.

(** Against C4 as stated: the second call of [Close] closes the connection
    again, and returns another result than the first. *)
Lemma C4_second_close_counterexample :
  exists s,
    run (sample_client quiet) net_up close_twice
      (init_sys (sample_client quiet)
         (launched_between w_other_port (w_started quiet)) ∅) = Some (Ok s) /\
    s_calls s = [ClReturned None; ClReturned (Some ErrClosed)] /\
    history s =
      [ActCancel 1; ActWgDone Barrier; ActWgDone Subscription;
       ActConnClose 0 None; ActCloseReturn 0 None;
       ActCancel 1;
       ActConnClose 0 (Some ErrClosed); ActCloseReturn 1 (Some ErrClosed)].
Proof.
  eexists. split; [vm_compute; reflexivity |]. repeat split.
Qed.

(** C4, amended. Calling [Close] more than once never panics, but no call
    is cut short: every call that returns has closed the connection itself
    and returns what that close answered, so at most one call returns the
    pool's own close result and every other one the error of closing a
    closed pool. *)
Theorem C4_every_close_closes (ctx0 : Ctx) (log : Logger)
    (extractor : Ctx -> option RunParams) (w w' : World) (c : DefaultClient)
    (net : Net) (cancelled : gset nat) (ls : list Label) (r : result Sys) :
  newClient ctx0 log extractor w = (inl c, w') ->
  run c net ls (init_sys c (launched_between w w') cancelled) = Some r ->
  exists s,
    r = Ok s /\
    length (List.filter is_conn_close (history s)) =
      length (List.filter is_returned (s_calls s)) /\
    (forall call err,
       s_calls s !! call = Some (ClReturned err) ->
       exists before after,
         history s = before ++ [ActConnClose (rc_conn (rclient c)) err;
                                ActCloseReturn call err] ++ after /\
         err = close_answer net before) /\
    (forall i j e1 e2,
       i <> j ->
       s_calls s !! i = Some (ClReturned e1) ->
       s_calls s !! j = Some (ClReturned e2) ->
       e1 = Some ErrClosed \/ e2 = Some ErrClosed).
Proof.
  intros Hnew Hrun.
  pose proof (newClient_Inv _ _ _ _ _ _ net cancelled Hnew) as HInv0.
  destruct (run_Inv c net ls _ r HInv0 Hrun) as (s & -> & HInv & _).
  exists s. split; [reflexivity |]. split; [| split].
  - rewrite <- (inv_count _ _ _ HInv). unfold history.
    generalize (s_log s). intros l. induction l as [| a l IH]; [reflexivity |].
    simpl. rewrite List.filter_app, length_app, IH. simpl.
    destruct (is_conn_close a); simpl; lia.
  - intros call err Hcall.
    destruct (returned_ok_history c net s call err
                (inv_returned _ _ _ HInv call err Hcall))
      as (before & after & Hhist & Herr & _).
    eauto.
  - apply (inv_first _ _ _ HInv).
Qed.

Lemma C4_every_close_closes_witness :
  exists s,
    run (sample_client quiet) net_up close_twice
      (init_sys (sample_client quiet)
         (launched_between w_other_port (w_started quiet)) ∅) = Some (Ok s) /\
    length (List.filter is_conn_close (history s)) =
      length (List.filter is_returned (s_calls s)).
Proof.
  destruct (run (sample_client quiet) net_up close_twice
              (init_sys (sample_client quiet)
                 (launched_between w_other_port (w_started quiet)) ∅))
    as [r |] eqn:Hrun; [| vm_compute in Hrun; discriminate].
  destruct (C4_every_close_closes Background quiet no_run w_other_port
              (w_started quiet) (sample_client quiet) net_up ∅
              close_twice r (newClient_sample_run quiet) Hrun)
    as (s & -> & Hcount & _).
  exists s. split; [reflexivity | exact Hcount].
Defined.

(** ** The context of the connection handle *)

Lemma ctx_done_mono (cancelled cancelled' : gset nat) (ctx0 : Ctx) :
  cancelled ⊆ cancelled' ->
  ctx_done cancelled ctx0 = true -> ctx_done cancelled' ctx0 = true.
Proof.
  intros Hsub. unfold ctx_done. rewrite !existsb_exists.
  intros (scope & Hin & Hc). exists scope. split; [exact Hin |].
  apply bool_decide_eq_true in Hc. apply bool_decide_eq_true. set_solver.
Qed.

(** Cancelling a scope a context does not lie in leaves it as it was. *)
Lemma ctx_done_other_scope (cancelled : gset nat) (scope : nat) (ctx0 : Ctx) :
  scope ∉ ctx0 ->
  ctx_done ({[scope]} ∪ cancelled) ctx0 = ctx_done cancelled ctx0.
Proof.
  intros Hfresh. unfold ctx_done.
  induction ctx0 as [| i ctx0 IH]; [reflexivity |]. simpl.
  apply not_elem_of_cons in Hfresh as [Hne Hfresh].
  rewrite (IH Hfresh). f_equal.
  apply bool_decide_ext. rewrite elem_of_union, elem_of_singleton.
  split; [intros [Heq | Hin]; [congruence | exact Hin] | by right].
Qed.

(** Against C1 as stated: the handle of the sample client runs under the
    context handed to the constructor, not under the client's own, and
    after [Close] has cancelled the latter a manager's command still goes
    out under a context that is not done. *)
Lemma C1_handle_context_counterexample :
  fst (newClient Background quiet no_run w_other_port) =
    inl (sample_client quiet) /\
  rc_ctx (rclient (sample_client quiet)) <> ctx (sample_client quiet) /\
  exists s,
    run (sample_client quiet) net_up [LCallClose; LClose 0; LManagerCall Barrier]
      (init_sys (sample_client quiet)
         (launched_between w_other_port (w_started quiet)) ∅) = Some (Ok s) /\
    head (s_log s) =
      Some (ActStoreCall Barrier (rclient (sample_client quiet))) /\
    ctx_done (s_cancelled s) (ctx (sample_client quiet)) = true /\
    ctx_done (s_cancelled s) (rc_ctx (rclient (sample_client quiet))) = false.
Proof.
  split; [reflexivity |]. split; [discriminate |].
  eexists. split; [vm_compute; reflexivity |]. repeat split.
Qed.

(** C1, amended. The connection handle of the client runs under the
    context handed to the constructor, of which the client's cancelable
    context is a child: the health check went out under it, every command
    of the managers goes through that handle, and cancelling the context
    handed in ends both contexts, while the cancel function [Close] invokes
    ends the client's context only. *)
Theorem C1_handle_bound_to_passed_context (ctx0 : Ctx) (log : Logger)
    (extractor : Ctx -> option RunParams) (w w' : World) (c : DefaultClient) :
  newClient ctx0 log extractor w = (inl c, w') ->
  Forall (fun scope => (scope < w_next w)%nat) ctx0 ->
  rc_ctx (rclient c) = ctx0 /\
  ctx c = cancel c :: ctx0 /\
  (cancel c ∉ ctx0) /\
  EvPing (rc_conn (rclient c)) ctx0 ∈ events_between w w' /\
  (forall cancelled,
     ctx_done cancelled ctx0 = true ->
     ctx_done cancelled (ctx c) = true /\
     ctx_done cancelled (rc_ctx (rclient c)) = true) /\
  (forall cancelled,
     ctx_done cancelled ctx0 = false ->
     ctx_done ({[cancel c]} ∪ cancelled) (ctx c) = true /\
     ctx_done ({[cancel c]} ∪ cancelled) (rc_ctx (rclient c)) = false) /\
  (forall net cancelled ls s,
     run c net ls (init_sys c (launched_between w w') cancelled) = Some (Ok s) ->
     forall who h, ActStoreCall who h ∈ history s -> h = rclient c).
Proof.
  intros Hnew Hwf.
  destruct (newClient_inv _ _ _ _ _ _ Hnew) as (port & _ & _ & Hc & Hevs).
  assert (S (w_next w) ∉ ctx0) as Hfresh.
  { intros Hin. rewrite Forall_forall in Hwf. apply Hwf in Hin. lia. }
  split; [by rewrite Hc |]. split; [by rewrite Hc |].
  split; [by rewrite Hc |].
  split; [rewrite Hevs, Hc; simpl; set_solver |].
  split; [| split].
  - intros cancelled Hdone. rewrite Hc. simpl. rewrite Hdone.
    split; [apply orb_true_r | reflexivity].
  - intros cancelled Hdone. rewrite Hc. simpl.
    split; [| by rewrite ctx_done_other_scope].
    apply orb_true_iff. left. apply bool_decide_eq_true.
    apply elem_of_union. left. by apply elem_of_singleton.
  - intros net cancelled ls s Hrun who h Hin.
    pose proof (newClient_Inv _ _ _ _ _ _ net cancelled Hnew) as HInv0.
    destruct (run_Inv c net ls _ _ HInv0 Hrun) as (s' & [= <-] & HInv & _).
    unfold history in Hin. rewrite elem_of_rev_log in Hin.
    by apply (inv_handle _ _ _ HInv who).
Qed.

Lemma C1_handle_bound_to_passed_context_witness :
  Forall (fun scope => (scope < w_next w_other_port)%nat) Background /\
  rc_ctx (rclient (sample_client quiet)) = Background /\
  ctx (sample_client quiet) = [cancel (sample_client quiet)].
Proof.
  assert (Forall (fun scope => (scope < w_next w_other_port)%nat) Background)
    as Hwf by constructor.
  split; [exact Hwf |].
  destruct (C1_handle_bound_to_passed_context Background quiet no_run
              w_other_port (w_started quiet) (sample_client quiet)
              (newClient_sample_run quiet) Hwf) as (Hhandle & Hctx & _).
  split; [exact Hhandle | exact Hctx].
Defined.

(** ** The sampler *)

(** Provisioning launches no goroutine, whatever its outcome. *)
Lemma redisClient_launches_nothing (ctx : Ctx) (log : Logger) (w : World) :
  launched_between w (snd (redisClient ctx log w)) = [].
Proof.
  unfold launched_between.
  destruct (resolved_port w) as [port |] eqn:Hport.
  - rewrite (redisClient_provisions ctx log w port Hport).
    destruct (ping_answer w ctx (host_port (getenv w EnvRedisHost) port));
      simpl snd; by rewrite happened_events.
  - unfold resolved_port in Hport.
    destruct (decide (getenv w EnvRedisPort = ""%string)) as [| Hset];
      [discriminate |].
    destruct (Atoi (getenv w EnvRedisPort)) as [p [err |]] eqn:Hatoi;
      [| discriminate].
    rewrite (redisClient_bad_port ctx log w err Hset) by (by rewrite Hatoi).
    simpl snd. by rewrite events_between_same.
Qed.

(** C8. The constructor starts the periodic sampler if and only if
    debug-level diagnostics are enabled on the logger handed in: a
    construction that returns a client has launched one sampler when they
    are and none when they are not.  The sampler ticks every second under
    the client's context, reads and logs the pool statistics after each
    tick, and returns once that context is done.  A construction that fails
    at provisioning has returned before the test and launched nothing. *)
Theorem C8_sampler_gating (ctx0 : Ctx) (log : Logger)
    (extractor : Ctx -> option RunParams) (w : World) :
  let r := newClient ctx0 log extractor w in
  (forall c, fst r = inl c ->
     (existsb is_sampler (launched_between w (snd r)) = true <->
      Enabled log DebugLevel = true)) /\
  (existsb is_sampler (launched_between w (snd r)) = true <->
   Enabled log DebugLevel = true /\ exists c, fst r = inl c) /\
  (forall c, fst r = inl c ->
     List.filter is_sampler (launched_between w (snd r)) =
       if Enabled log DebugLevel
       then [GSampler (1 * Second) (rclient c) (ctx c)] else []) /\
  (forall (s : Sys) (smp : Sampler),
     s_sampler s = Some smp ->
     match smp_pc smp with
     | SmpSelect =>
         sampler_step LSamplerTick s = Some (Ok (set_sampler_pc SmpTicked s)) /\
         sampler_step LSamplerDone s =
           (if ctx_done (s_cancelled s) (smp_ctx smp)
            then Some (Ok (set_sampler_pc SmpExited s)) else None) /\
         sampler_step LSamplerLog s = None
     | SmpTicked =>
         sampler_step LSamplerLog s =
           Some (Ok (record (ActPoolStats (rc_conn (smp_rclient smp)))
                       (set_sampler_pc SmpSelect s))) /\
         sampler_step LSamplerTick s = None /\
         sampler_step LSamplerDone s = None
     | SmpExited => forall l, sampler_step l s = None
     end).
Proof.
  intros r. subst r.
  destruct (newClient ctx0 log extractor w) as [[c | e] w'] eqn:Hnew; simpl.
  - destruct (newClient_inv _ _ _ _ _ _ Hnew) as (port & _ & _ & Hc & Hevs).
    unfold launched_between. rewrite Hevs, Hc. simpl.
    split; [| split; [| split]].
    + intros c' _. by destruct (Enabled log DebugLevel).
    + destruct (Enabled log DebugLevel); simpl; split;
        [eauto | done | discriminate | intros [? _]; discriminate].
    + intros c' [= <-]. by destruct (Enabled log DebugLevel).
    + intros s smp Hsmp. unfold sampler_step. rewrite Hsmp.
      destruct (smp_pc smp); [done | done | by intros []].
  - assert (launched_between w w' = []) as Hnone.
    { destruct (redisClient ctx0 log w) as [[rc | e'] w1] eqn:Hprov.
      - rewrite (newClient_succeeds _ _ extractor _ _ _ Hprov) in Hnew.
        discriminate.
      - rewrite (newClient_fails _ _ extractor _ _ _ Hprov) in Hnew.
        injection Hnew as _ <-.
        pose proof (redisClient_launches_nothing ctx0 log w) as Hl.
        by rewrite Hprov in Hl. }
    rewrite Hnone. simpl. split; [| split; [| split]].
    + discriminate.
    + split; [discriminate | by intros [_ [c Hc]]].
    + discriminate.
    + intros s smp Hsmp. unfold sampler_step. rewrite Hsmp.
      destruct (smp_pc smp); [done | done | by intros []].
Qed.

Lemma C8_sampler_gating_witness :
  fst (newClient Background verbose no_run w_other_port) =
    inl (sample_client verbose) /\
  existsb is_sampler
    (launched_between w_other_port
       (snd (newClient Background verbose no_run w_other_port))) = true /\
  List.filter is_sampler
    (launched_between w_other_port
       (snd (newClient Background verbose no_run w_other_port))) =
    [GSampler (1 * Second) (rclient (sample_client verbose))
       (ctx (sample_client verbose))].
Proof.
  assert (fst (newClient Background verbose no_run w_other_port) =
            inl (sample_client verbose)) as Hrun by reflexivity.
  split; [exact Hrun |].
  pose proof (C8_sampler_gating Background verbose no_run w_other_port)
    as (Hiff & _ & Hone & _).
  split; [by apply (Hiff (sample_client verbose) Hrun) |].
  exact (Hone (sample_client verbose) Hrun).
Defined.

Lemma C10_String_names_and_panics_witness :
  ~ (0 <= 7 <= 6) /\
  Runtime.String 7 = Panic (PanicIndexOutOfRange 7 7) /\
  0 <= 4 <= 6 /\
  exists name, Runtime.String 4 = Ok name.
Proof.
  assert (~ (0 <= 7 <= 6)) as Hout by lia.
  assert (0 <= 4 <= 6) as Hin by lia.
  destruct C10_String_names_and_panics
    as (_ & _ & _ & _ & _ & _ & _ & Hnames & Hpanics).
  split; [exact Hout |]. split; [exact (Hpanics 7 Hout) |].
  split; [exact Hin | exact (Hnames 4 Hin)].
Defined.

(** ** Ports: [Atoi] reads back what [%d] prints *)

Lemma uint_value_acc (d : Decimal.uint) :
  forall acc : positive, uint_value d (Z.pos acc) = Z.pos (Pos.of_uint_acc d acc).
Proof.
  induction d; intros acc; simpl; try reflexivity;
    rewrite <- IHd; f_equal; lia.
Qed.

Lemma uint_value_of_uint (d : Decimal.uint) :
  uint_value d 0 = Z.of_N (Pos.of_uint d).
Proof.
  induction d; simpl; try reflexivity; try exact IHd;
    rewrite <- uint_value_acc; reflexivity.
Qed.

Lemma uint_value_ge (d : Decimal.uint) :
  forall acc, 0 <= acc -> acc <= uint_value d acc.
Proof.
  induction d; intros acc Hacc; simpl; try lia;
    match goal with
    | |- _ <= uint_value _ ?a => specialize (IHd a); lia
    end.
Qed.

(** One digit that keeps the value within [uint64] is read and the scan
    goes on. *)
Lemma parse_digits_step (c : ascii) (rest : string) (acc k : Z) :
  Z.of_nat (nat_of_ascii c) - 48 = k ->
  0 <= k <= 9 -> 0 <= acc -> 10 * acc + k <= maxUint64 ->
  parse_digits (String c rest) acc = parse_digits rest (10 * acc + k).
Proof.
  intros Hc Hk Hacc Hfit. unfold maxUint64 in Hfit.
  change (2 ^ 64 - 1) with 18446744073709551615 in Hfit.
  cbn [parse_digits]. rewrite Hc. unfold maxUint64.
  change (2 ^ 64 - 1) with 18446744073709551615.
  change (18446744073709551615 / 10 + 1) with 1844674407370955162.
  replace (k <? 0) with false by lia. replace (9 <? k) with false by lia.
  replace (1844674407370955162 <=? acc) with false by lia.
  replace (18446744073709551615 <? acc * 10 + k) with false by lia.
  cbn [orb]. f_equal. lia.
Qed.

(** Digits whose value fits [uint64] are read without an error. *)
Lemma parse_digits_string_of_uint (d : Decimal.uint) :
  forall acc,
    0 <= acc -> uint_value d acc <= maxUint64 ->
    parse_digits (NilEmpty.string_of_uint d) acc = inl (uint_value d acc).
Proof.
  induction d; intros acc Hacc Hfit; cbn [uint_value] in Hfit |- *;
    [reflexivity | ..];
    match type of Hfit with
    | uint_value _ (10 * acc) <= _ =>
        pose proof (uint_value_ge d (10 * acc) ltac:(lia)) as Hge;
        cbn [NilEmpty.string_of_uint];
        rewrite (parse_digits_step _ _ acc 0);
          [ replace (10 * acc + 0) with (10 * acc) by lia;
            apply IHd; [lia | exact Hfit]
          | reflexivity | lia | exact Hacc | lia ]
    | uint_value _ (10 * acc + ?k) <= _ =>
        pose proof (uint_value_ge d (10 * acc + k) ltac:(lia)) as Hge;
        cbn [NilEmpty.string_of_uint];
        rewrite (parse_digits_step _ _ acc k);
          [ apply IHd; [lia | exact Hfit]
          | reflexivity | lia | exact Hacc | lia ]
    end.
Qed.

Lemma string_of_uint_head (d : Decimal.uint) :
  d <> Decimal.Nil ->
  exists c rest,
    NilEmpty.string_of_uint d = String c rest /\
    c <> "+"%char /\ c <> "-"%char.
Proof.
  intros Hd. destruct d; [contradiction | ..]; simpl; eauto 6.
Qed.

Lemma Atoi_digits (d : Decimal.uint) :
  d <> Decimal.Nil ->
  uint_value d 0 < 2 ^ 63 ->
  Atoi (NilEmpty.string_of_uint d) = (uint_value d 0, None).
Proof.
  intros Hd Hfit.
  destruct (string_of_uint_head d Hd) as (c & rest & Heq & Hplus & Hminus).
  unfold Atoi. rewrite Heq.
  rewrite (bool_decide_eq_false_2 _ Hplus), (bool_decide_eq_false_2 _ Hminus).
  cbn [orb negb andb]. rewrite <- Heq.
  rewrite parse_digits_string_of_uint; [| lia | unfold maxUint64; lia].
  replace (2 ^ 63 <=? uint_value d 0) with false by lia. reflexivity.
Qed.

Lemma Atoi_minus_digits (d : Decimal.uint) :
  d <> Decimal.Nil ->
  uint_value d 0 <= 2 ^ 63 ->
  Atoi (String "-" (NilEmpty.string_of_uint d)) = (- uint_value d 0, None).
Proof.
  intros Hd Hfit.
  destruct (string_of_uint_head d Hd) as (c & rest & Heq & _).
  unfold Atoi. cbv zeta.
  rewrite (bool_decide_eq_true_2 ("-"%char = "-"%char) eq_refl).
  rewrite orb_true_r. cbv iota.
  destruct (NilEmpty.string_of_uint d) as [| c' rest'] eqn:Hs; [discriminate |].
  rewrite <- Hs.
  rewrite parse_digits_string_of_uint; [| lia | unfold maxUint64; lia].
  cbn [negb andb]. replace (2 ^ 63 <? uint_value d 0) with false by lia.
  reflexivity.
Qed.

Lemma uint_value_to_uint (p : positive) :
  uint_value (Pos.to_uint p) 0 = Z.pos p.
Proof. by rewrite uint_value_of_uint, DecimalPos.Unsigned.of_to. Qed.

(** [Atoi] reads back every [int] that [%d] printed. *)
Lemma Atoi_Itoa (n : Z) :
  - 2 ^ 63 <= n < 2 ^ 63 -> Atoi (Itoa n) = (n, None).
Proof.
  intros Hn. unfold Itoa. destruct n as [| p | p]; [reflexivity | |].
  - pose proof (DecimalPos.Unsigned.to_uint_nonnil p) as Hnil.
    cbn [Z.to_int NilZero.string_of_int]. unfold NilZero.string_of_uint.
    destruct (Pos.to_uint p) eqn:Hd; [contradiction | ..];
      rewrite <- Hd in *; rewrite Atoi_digits;
      rewrite ?uint_value_to_uint; auto; lia.
  - pose proof (DecimalPos.Unsigned.to_uint_nonnil p) as Hnil.
    cbn [Z.to_int NilZero.string_of_int]. unfold NilZero.string_of_uint.
    destruct (Pos.to_uint p) eqn:Hd; [contradiction | ..];
      rewrite <- Hd in *; rewrite Atoi_minus_digits;
      rewrite ?uint_value_to_uint; auto; lia.
Qed.

Lemma Itoa_nonempty (n : Z) : Itoa n <> ""%string.
Proof.
  unfold Itoa. destruct n as [| p | p]; [discriminate | | discriminate].
  cbn [Z.to_int NilZero.string_of_int]. unfold NilZero.string_of_uint.
  pose proof (DecimalPos.Unsigned.to_uint_nonnil p) as Hnil.
  destruct (string_of_uint_head _ Hnil) as (c & rest & Heq & _).
  destruct (Pos.to_uint p); [discriminate | ..]; rewrite Heq; discriminate.
Qed.

(** X1. Every integer that fits [int] is taken as the port when
    [REDIS_PORT] spells it, below zero or above 65535 alike: the pool is
    built for the host and that number printed back, nothing checks the
    range of the port. *)
Theorem X1_port_unchecked (ctx : Ctx) (log : Logger) (w : World) (n : Z) :
  - 2 ^ 63 <= n < 2 ^ 63 ->
  w_env w !! EnvRedisPort = Some (Itoa n) ->
  resolved_port w = Some n /\
  opened (events_between w (snd (redisClient ctx log w))) =
    [(w_next w,
      set_Addr DefaultRedisOpts (getenv w EnvRedisHost ++ ":" ++ Itoa n)%string)].
Proof.
  intros Hn Hset.
  assert (resolved_port w = Some n) as Hport.
  { unfold resolved_port, getenv. rewrite Hset. simpl.
    destruct (decide (Itoa n = ""%string)) as [Hempty |];
      [by apply Itoa_nonempty in Hempty |].
    by rewrite (Atoi_Itoa n Hn). }
  split; [exact Hport |].
  rewrite (redisClient_provisions ctx log w n Hport).
  destruct (ping_answer w ctx (host_port (getenv w EnvRedisHost) n));
    simpl snd; rewrite happened_events; reflexivity.
Qed.

Lemma X1_port_unchecked_witness :
  (- 2 ^ 63 <= -1 < 2 ^ 63 /\
   w_env w_negative_port !! EnvRedisPort = Some (Itoa (-1)) /\
   opened (events_between w_negative_port
             (snd (redisClient Background quiet w_negative_port))) =
     [(0%nat, set_Addr DefaultRedisOpts "redis:-1")]) /\
  (w_env w_large_port !! EnvRedisPort = Some (Itoa 70000) /\
   opened (events_between w_large_port
             (snd (redisClient Background quiet w_large_port))) =
     [(0%nat, set_Addr DefaultRedisOpts "redis:70000")]).
Proof.
  assert (- 2 ^ 63 <= -1 < 2 ^ 63) as Hneg by lia.
  assert (- 2 ^ 63 <= 70000 < 2 ^ 63) as Hlarge by lia.
  split.
  - split; [exact Hneg |]. split; [reflexivity |].
    exact (proj2 (X1_port_unchecked Background quiet w_negative_port (-1)
                    Hneg eq_refl)).
  - split; [reflexivity |].
    exact (proj2 (X1_port_unchecked Background quiet w_large_port 70000
                    Hlarge eq_refl)).
Defined.




(** The world a successful construction leaves: the environment and the
    store as they were, four identifiers given out, the events appended. *)
Lemma newClient_world (ctx0 : Ctx) (log : Logger)
    (extractor : Ctx -> option RunParams) (w w' : World) (c : DefaultClient) :
  newClient ctx0 log extractor w = (inl c, w') ->
  w_env w' = w_env w /\ w_net w' = w_net w /\
  w_next w' = (4 + w_next w)%nat /\
  w_trace w' = w_trace w ++ events_between w w'.
Proof.
  intros Hnew.
  destruct (redisClient ctx0 log w) as [[rc | e] w1] eqn:Hprov.
  - rewrite (newClient_succeeds _ _ extractor _ _ _ Hprov) in Hnew.
    destruct (resolved_port w) as [port |] eqn:Hport.
    + rewrite (redisClient_provisions ctx0 log w port Hport) in Hprov.
      destruct (ping_answer w ctx0 (host_port (getenv w EnvRedisHost) port));
        [discriminate |].
      injection Hprov as <- <-. injection Hnew as _ <-.
      unfold events_between, happened. simpl.
      split; [reflexivity |]. split; [reflexivity |]. split; [reflexivity |].
      by rewrite <- app_assoc, drop_app_length.
    + exfalso.
      assert (exists e, fst (redisClient ctx0 log w) = inr e) as [e He].
      { apply redisClient_fails_iff. by left. }
      rewrite Hprov in He. discriminate.
  - rewrite (newClient_fails _ _ extractor _ _ _ Hprov) in Hnew. discriminate.
Qed.

(** X3. A constructor that succeeds has started each manager exactly once,
    the barrier worker first, and the sampler last if at all; it has built
    exactly one pool, the one of the client's handle, and left it open;
    the wait group stands at two and the two request channels are distinct
    and unbuffered. *)
Theorem X3_successful_construction (ctx0 : Ctx) (log : Logger)
    (extractor : Ctx -> option RunParams) (w w' : World) (c : DefaultClient) :
  newClient ctx0 log extractor w = (inl c, w') ->
  ids_below w ->
  launched_between w w' =
    [GBarrierWorker; GSubscriptionWorker] ++
    (if Enabled log DebugLevel
     then [GSampler (1 * Second) (rclient c) (ctx c)] else []) /\
  opened (events_between w w') = [(rc_conn (rclient c), rc_opts (rclient c))] /\
  conn_closed (w_trace w') (rc_conn (rclient c)) = false /\
  wg c = 2 /\
  chan_cap (barrierCh c) = 0%nat /\ chan_cap (newSubCh c) = 0%nat /\
  chan_id (barrierCh c) <> chan_id (newSubCh c) /\
  ids_below w'.
Proof.
  intros Hnew Hids.
  destruct (newClient_world _ _ _ _ _ _ Hnew) as (_ & _ & Hnext & Htrace).
  destruct (newClient_inv _ _ _ _ _ _ Hnew) as (port & _ & _ & Hc & Hevs).
  rewrite Htrace, Hevs. unfold launched_between. rewrite Hevs. subst c. simpl.
  split; [by destruct (Enabled log DebugLevel) |].
  split; [by destruct (Enabled log DebugLevel) |].
  assert (conn_closed (w_trace w) (w_next w) = false) as Hopen.
  { unfold conn_closed. apply not_true_is_false. intros Hc.
    apply existsb_exists in Hc as (e & Hin & He).
    apply list_elem_of_In, Hids in Hin. destruct e; try discriminate.
    apply bool_decide_eq_true in He. lia. }
  split.
  { unfold conn_closed in *. rewrite existsb_app, Hopen.
    by destruct (Enabled log DebugLevel). }
  split; [reflexivity |]. split; [reflexivity |]. split; [reflexivity |].
  split; [lia |].
  intros e Hin. rewrite Htrace in Hin. apply elem_of_app in Hin as [Hin | Hin].
  - apply Hids in Hin. destruct e; try exact I; lia.
  - rewrite Hevs in Hin.
    destruct (Enabled log DebugLevel);
      repeat (apply elem_of_cons in Hin as [-> | Hin]; [simpl; try lia; exact I |]);
      by apply elem_of_nil in Hin.
Qed.

Lemma X3_successful_construction_witness :
  ids_below w_other_port /\
  launched_between w_other_port (w_started verbose) =
    [GBarrierWorker; GSubscriptionWorker;
     GSampler (1 * Second) (rclient (sample_client verbose))
       (ctx (sample_client verbose))] /\
  conn_closed (w_trace (w_started verbose))
    (rc_conn (rclient (sample_client verbose))) = false.
Proof.
  assert (ids_below w_other_port) as Hids.
  { intros e Hin. by apply elem_of_nil in Hin. }
  split; [exact Hids |].
  destruct (X3_successful_construction Background verbose no_run w_other_port
              (w_started verbose) (sample_client verbose)
              (newClient_sample_run verbose) Hids)
    as (Hgo & _ & Hopen & _).
  split; [exact Hgo | exact Hopen].
Defined.

Lemma resolved_port_env (w w' : World) :
  w_env w' = w_env w -> resolved_port w' = resolved_port w.
Proof. intros Henv. unfold resolved_port, getenv. by rewrite Henv. Qed.

(** X4. Two clients constructed one after the other from the same context
    share nothing, whenever the second construction succeeds too: they have
    different pools, different cancel scopes and different request
    channels, and the cancel function of either leaves the context of the
    other as it was.  When the environment has not changed in between, the
    two pools are built with the same options. *)
Theorem X4_clients_are_independent (ctx0 : Ctx) (log1 log2 : Logger)
    (ext1 ext2 : Ctx -> option RunParams) (w1 w1' w2 w2' : World)
    (c1 c2 : DefaultClient) :
  newClient ctx0 log1 ext1 w1 = (inl c1, w1') ->
  newClient ctx0 log2 ext2 w2 = (inl c2, w2') ->
  (w_next w1' <= w_next w2)%nat ->
  Forall (fun scope => (scope < w_next w1)%nat) ctx0 ->
  rc_conn (rclient c1) <> rc_conn (rclient c2) /\
  cancel c1 <> cancel c2 /\
  chan_id (barrierCh c1) <> chan_id (barrierCh c2) /\
  chan_id (newSubCh c1) <> chan_id (newSubCh c2) /\
  (w_env w2 = w_env w1 -> rc_opts (rclient c1) = rc_opts (rclient c2)) /\
  (forall cancelled,
     ctx_done ({[cancel c1]} ∪ cancelled) (ctx c2) = ctx_done cancelled (ctx c2)) /\
  (forall cancelled,
     ctx_done ({[cancel c2]} ∪ cancelled) (ctx c1) = ctx_done cancelled (ctx c1)).
Proof.
  intros Hnew1 Hnew2 Hlater Hwf.
  destruct (newClient_world _ _ _ _ _ _ Hnew1) as (_ & _ & Hnext & _).
  destruct (newClient_inv _ _ _ _ _ _ Hnew1) as (port1 & Hport1 & _ & Hc1 & _).
  destruct (newClient_inv _ _ _ _ _ _ Hnew2) as (port2 & Hport2 & _ & Hc2 & _).
  subst c1 c2. cbn [ctx cancel rclient rc_conn rc_opts barrierCh newSubCh chan_id].
  rewrite Hnext in Hlater.
  assert (forall scope, scope ∈ ctx0 -> (scope < w_next w1)%nat) as Hlt.
  { by apply Forall_forall. }
  split; [lia |]. split; [lia |]. split; [lia |]. split; [lia |].
  split.
  { intros Henv. rewrite (resolved_port_env w1 w2 Henv) in Hport2.
    unfold getenv. rewrite Henv. congruence. }
  split; intros cancelled; apply ctx_done_other_scope.
  - intros [Heq | Hin]%elem_of_cons; [lia | apply Hlt in Hin; lia].
  - intros [Heq | Hin]%elem_of_cons; [lia | apply Hlt in Hin; lia].
Qed.

Lemma X4_clients_are_independent_witness :
  (w_next (w_started quiet) <= w_next (w_started quiet))%nat /\
  Forall (fun scope => (scope < w_next w_other_port)%nat) Background /\
  exists c2 w2',
    newClient Background verbose no_run (w_started quiet) = (inl c2, w2') /\
    rc_conn (rclient (sample_client quiet)) <> rc_conn (rclient c2) /\
    cancel (sample_client quiet) <> cancel c2.
Proof.
  assert (w_next (w_started quiet) <= w_next (w_started quiet))%nat
    as Hlater by lia.
  assert (Forall (fun scope => (scope < w_next w_other_port)%nat) Background)
    as Hwf by constructor.
  split; [exact Hlater |]. split; [exact Hwf |].
  destruct (newClient Background verbose no_run (w_started quiet))
    as [[c2 | e] w2'] eqn:Hnew2; [| vm_compute in Hnew2; discriminate].
  destruct (X4_clients_are_independent Background quiet verbose no_run no_run
              w_other_port (w_started quiet) (w_started quiet) w2'
              (sample_client quiet) c2
              (newClient_sample_run quiet) Hnew2 Hlater Hwf)
    as (Hconn & Hcancel & _).
  exists c2, w2'. auto.
Defined.

(** The extractor has no part in what the constructor does to the world. *)
Lemma newClient_extractor (ctx0 : Ctx) (logger : Logger)
    (ext1 ext2 : Ctx -> option RunParams) (w : World) :
  snd (newClient ctx0 logger ext1 w) = snd (newClient ctx0 logger ext2 w) /\
  match fst (newClient ctx0 logger ext1 w), fst (newClient ctx0 logger ext2 w) with
  | inl c1, inl c2 =>
      extractor c1 = ext1 /\ extractor c2 = ext2 /\
      ctx c1 = ctx c2 /\ cancel c1 = cancel c2 /\ wg c1 = wg c2 /\
      log c1 = log c2 /\ rclient c1 = rclient c2 /\
      barrierCh c1 = barrierCh c2 /\ newSubCh c1 = newSubCh c2
  | inr e1, inr e2 => e1 = e2
  | _, _ => False
  end.
Proof.
  destruct (redisClient ctx0 logger w) as [[rc | e] w1] eqn:Hprov.
  - rewrite (newClient_succeeds _ _ ext1 _ _ _ Hprov).
    rewrite (newClient_succeeds _ _ ext2 _ _ _ Hprov). simpl. auto 10.
  - rewrite (newClient_fails _ _ ext1 _ _ _ Hprov).
    rewrite (newClient_fails _ _ ext2 _ _ _ Hprov). simpl. auto.
Qed.

(** X5. A [Must] constructor panics exactly when the port is malformed or
    the health check fails; it then panics with the very error the plain
    constructor returns and has started no goroutine.  Otherwise it returns
    the client of the plain constructor; in both cases the world is left as
    the plain constructor leaves it. *)
Theorem X5_must_constructors (GetRunParams : Ctx -> option RunParams)
    (ctx0 : Ctx) (runenv : RunEnv) (log : Logger) (w : World) :
  snd (MustBoundClient ctx0 runenv w) = snd (NewBoundClient ctx0 runenv w) /\
  snd (MustGenericClient GetRunParams ctx0 log w) =
    snd (NewGenericClient GetRunParams ctx0 log w) /\
  match fst (MustBoundClient ctx0 runenv w) with
  | Panicked err =>
      (malformed_port w \/ ping_fails ctx0 w) /\
      fst (NewBoundClient ctx0 runenv w) = inr err /\
      launched_between w (snd (MustBoundClient ctx0 runenv w)) = []
  | Returned c =>
      ~ (malformed_port w \/ ping_fails ctx0 w) /\
      fst (NewBoundClient ctx0 runenv w) = inl c
  end /\
  match fst (MustGenericClient GetRunParams ctx0 log w) with
  | Panicked err =>
      (malformed_port w \/ ping_fails ctx0 w) /\
      fst (NewGenericClient GetRunParams ctx0 log w) = inr err /\
      launched_between w (snd (MustGenericClient GetRunParams ctx0 log w)) = []
  | Returned c =>
      ~ (malformed_port w \/ ping_fails ctx0 w) /\
      fst (NewGenericClient GetRunParams ctx0 log w) = inl c
  end.
Proof.
  assert (forall log' ext,
    let r := newClient ctx0 log' ext w in
    match fst r with
    | inr err => (malformed_port w \/ ping_fails ctx0 w) /\
                 launched_between w (snd r) = []
    | inl c => ~ (malformed_port w \/ ping_fails ctx0 w)
    end) as Hcases.
  { intros log' ext. simpl.
    pose proof (redisClient_fails_iff ctx0 log' w) as Hiff.
    pose proof (redisClient_launches_nothing ctx0 log' w) as Hgo.
    destruct (redisClient ctx0 log' w) as [[rc | e] w1] eqn:Hprov.
    - rewrite (newClient_succeeds _ _ ext _ _ _ Hprov). simpl.
      intros Hfail. apply Hiff in Hfail as [e He]. discriminate.
    - rewrite (newClient_fails _ _ ext _ _ _ Hprov). simpl in *.
      split; [apply Hiff; eauto | exact Hgo]. }
  unfold MustBoundClient, MustGenericClient, NewBoundClient, NewGenericClient,
    mbind, M_bind, mret, M_ret.
  pose proof (Hcases (SLogger runenv)
                (fun _ => Some (RunEnv_RunParams runenv))) as Hb.
  pose proof (Hcases log GetRunParams) as Hg. simpl in Hb, Hg.
  destruct (newClient ctx0 (SLogger runenv)
              (fun _ => Some (RunEnv_RunParams runenv)) w) as [[cb | eb] wb];
    destruct (newClient ctx0 log GetRunParams w) as [[cg | eg] wg];
    simpl in *; repeat split; tauto.
Qed.

(** X6. The bound and the generic constructor differ in the extractor
    alone: run in the same world with the same logger they leave the same
    world and fail with the same error, or return clients equal in every
    other field; the bound client's extractor answers the run parameters of
    its run environment for every context, the generic client's is
    [GetRunParams]. *)
Theorem X6_bound_and_generic (GetRunParams : Ctx -> option RunParams)
    (ctx0 : Ctx) (runenv : RunEnv) (w : World) :
  snd (NewBoundClient ctx0 runenv w) =
    snd (NewGenericClient GetRunParams ctx0 (SLogger runenv) w) /\
  match fst (NewBoundClient ctx0 runenv w),
        fst (NewGenericClient GetRunParams ctx0 (SLogger runenv) w) with
  | inl cb, inl cg =>
      (forall ctx', extractor cb ctx' = Some (RunEnv_RunParams runenv)) /\
      extractor cg = GetRunParams /\
      Sync.log cb = SLogger runenv /\ Sync.log cg = SLogger runenv /\
      ctx cb = ctx cg /\ cancel cb = cancel cg /\ wg cb = wg cg /\
      rclient cb = rclient cg /\
      barrierCh cb = barrierCh cg /\ newSubCh cb = newSubCh cg
  | inr eb, inr eg => eb = eg
  | _, _ => False
  end.
Proof.
  unfold NewBoundClient, NewGenericClient.
  destruct (newClient_extractor ctx0 (SLogger runenv)
              (fun _ => Some (RunEnv_RunParams runenv)) GetRunParams w)
    as [Hworld Hclients].
  split; [exact Hworld |].
  destruct (newClient ctx0 (SLogger runenv)
              (fun _ => Some (RunEnv_RunParams runenv)) w) as [[cb | eb] wb] eqn:Hb;
    destruct (newClient ctx0 (SLogger runenv) GetRunParams w)
      as [[cg | eg] wg'] eqn:Hg; simpl in *; try exact Hclients.
  destruct Hclients as (Heb & Heg & Hctx & Hcancel & Hwg & Hlog & Hrc & Hbc & Hsc).
  destruct (newClient_inv _ _ _ _ _ _ Hb) as (port & _ & _ & Hcb & _).
  split; [intros ctx'; by rewrite Heb |].
  split; [exact Heg |].
  split; [by rewrite Hcb |]. split; [by rewrite <- Hlog, Hcb |]. auto 10.
Qed.

(** ** More on the running client *)

(** Everything a run from a fresh client keeps. *)
Lemma run_from_newClient (ctx0 : Ctx) (log : Logger)
    (extractor : Ctx -> option RunParams) (w w' : World) (c : DefaultClient)
    (net : Net) (cancelled : gset nat) (ls : list Label) (s : Sys) :
  newClient ctx0 log extractor w = (inl c, w') ->
  run c net ls (init_sys c (launched_between w w') cancelled) = Some (Ok s) ->
  Inv c net s /\
  (forall who, manager who s <> None) /\
  ctx c = cancel c :: ctx0 /\
  (forall smp, s_sampler s = Some smp -> smp_ctx smp = ctx c).
Proof.
  intros Hnew Hrun.
  pose proof (newClient_Inv _ _ _ _ _ _ net cancelled Hnew) as HInv0.
  destruct (run_Inv c net ls _ _ HInv0 Hrun)
    as (s' & [= <-] & HInv & Hm & Hctx & _).
  pose proof (newClient_init _ _ _ _ _ _ cancelled Hnew) as Hinit.
  rewrite Hinit in Hm, Hctx. simpl in Hm, Hctx.
  destruct (newClient_inv _ _ _ _ _ _ Hnew) as (port & _ & _ & Hc & _).
  split; [exact HInv |]. split; [| split].
  - intros who Hnone. apply Hm in Hnone. by destruct who.
  - by rewrite Hc.
  - intros smp Hsmp. rewrite Hsmp in Hctx. simpl in Hctx.
    destruct (Enabled log DebugLevel); [| discriminate]. by injection Hctx.
Qed.

(** X7. Once a call of [Close] has returned, the handle the accessor
    [RedisClient()] gives out is the handle of a closed pool, the pool that
    was health-checked at construction: closing it again answers the error
    of a closed pool. *)
Theorem X7_accessor_after_close (ctx0 : Ctx) (log : Logger)
    (extractor : Ctx -> option RunParams) (w w' : World) (c : DefaultClient)
    (net : Net) (cancelled : gset nat) (ls : list Label) (s : Sys)
    (call : nat) (err : option error) :
  newClient ctx0 log extractor w = (inl c, w') ->
  run c net ls (init_sys c (launched_between w w') cancelled) = Some (Ok s) ->
  s_calls s !! call = Some (ClReturned err) ->
  EvPing (rc_conn (DefaultClient_RedisClient c)) ctx0 ∈ events_between w w' /\
  ActConnClose (rc_conn (DefaultClient_RedisClient c)) err ∈ history s /\
  close_answer net (s_log s) = Some ErrClosed.
Proof.
  intros Hnew Hrun Hcall.
  destruct (run_from_newClient _ _ _ _ _ _ net cancelled ls s Hnew Hrun)
    as (HInv & _).
  destruct (newClient_inv _ _ _ _ _ _ Hnew) as (port & _ & _ & Hc & Hevs).
  pose proof (inv_returned _ _ _ HInv call err Hcall) as Hret.
  split; [| split].
  - rewrite Hevs, Hc. simpl. set_solver.
  - destruct Hret as (newer & older & Hlog & _).
    unfold history. rewrite elem_of_rev_log, Hlog.
    unfold DefaultClient_RedisClient. set_solver.
  - unfold close_answer. by rewrite (returned_ok_closed c net s call err Hret).
Qed.

Lemma X7_accessor_after_close_witness :
  exists s,
    run (sample_client quiet) net_up close_once
      (init_sys (sample_client quiet)
         (launched_between w_other_port (w_started quiet)) ∅) = Some (Ok s) /\
    s_calls s !! 0%nat = Some (ClReturned None) /\
    close_answer net_up (s_log s) = Some ErrClosed.
Proof.
  destruct (run (sample_client quiet) net_up close_once
              (init_sys (sample_client quiet)
                 (launched_between w_other_port (w_started quiet)) ∅))
    as [[s | p] |] eqn:Hrun; try (vm_compute in Hrun; discriminate).
  assert (s_calls s !! 0%nat = Some (ClReturned None)) as Hcall.
  { vm_compute in Hrun. injection Hrun as <-. reflexivity. }
  exists s. split; [reflexivity |]. split; [exact Hcall |].
  exact (proj2 (proj2 (X7_accessor_after_close Background quiet no_run
                         w_other_port (w_started quiet) (sample_client quiet)
                         net_up ∅ close_once s 0%nat None
                         (newClient_sample_run quiet) Hrun Hcall))).
Defined.

(** X9. The pool is closed by [Close] and by nothing else: in every run a
    close of the pool has happened exactly when some call of [Close] has
    returned.  Cancelling the context handed to the constructor lets the
    managers leave but closes nothing. *)
Theorem X9_pool_closed_only_by_close (ctx0 : Ctx) (log : Logger)
    (extractor : Ctx -> option RunParams) (w w' : World) (c : DefaultClient)
    (net : Net) (cancelled : gset nat) (ls : list Label) (s : Sys) :
  newClient ctx0 log extractor w = (inl c, w') ->
  run c net ls (init_sys c (launched_between w w') cancelled) = Some (Ok s) ->
  existsb is_conn_close (history s) = existsb is_returned (s_calls s).
Proof.
  intros Hnew Hrun.
  destruct (run_from_newClient _ _ _ _ _ _ net cancelled ls s Hnew Hrun)
    as (HInv & _).
  pose proof (inv_count _ _ _ HInv) as Hcount.
  unfold history. rewrite existsb_rev_log.
  assert (forall {A} (f : A -> bool) (l : list A),
            existsb f l = negb (length (List.filter f l) =? 0)%nat) as Hex.
  { intros A f l. induction l as [| a l IH]; [reflexivity |].
    simpl. destruct (f a); simpl; [reflexivity | exact IH]. }
  by rewrite !Hex, Hcount.
Qed.

Lemma X9_pool_closed_only_by_close_witness :
  exists s,
    run (sample_client quiet) net_up
      [LManagerCall Barrier; LCancelOutside 7; LManagerCall Subscription]
      (init_sys (sample_client quiet)
         (launched_between w_other_port (w_started quiet)) ∅) = Some (Ok s) /\
    existsb is_conn_close (history s) = existsb is_returned (s_calls s).
Proof.
  destruct (run (sample_client quiet) net_up
              [LManagerCall Barrier; LCancelOutside 7; LManagerCall Subscription]
              (init_sys (sample_client quiet)
                 (launched_between w_other_port (w_started quiet)) ∅))
    as [[s | p] |] eqn:Hrun; try (vm_compute in Hrun; discriminate).
  exists s. split; [reflexivity |].
  exact (X9_pool_closed_only_by_close Background quiet no_run w_other_port
           (w_started quiet) (sample_client quiet) net_up ∅ _ s
           (newClient_sample_run quiet) Hrun).
Defined.

Lemma sampler_exit_ok_frame (s s' : Sys) :
  sampler_exit_ok s ->
  s_sampler s' = s_sampler s ->
  s_cancelled s ⊆ s_cancelled s' ->
  sampler_exit_ok s'.
Proof.
  intros Hok Hsmp Hsub smp Hs Hpc. rewrite Hsmp in Hs.
  eapply ctx_done_mono; [exact Hsub | by apply Hok].
Qed.

Lemma step_sampler_exit_ok (c : DefaultClient) (net : Net) (l : Label)
    (s s' : Sys) :
  sampler_exit_ok s ->
  step c net l s = Some (Ok s') ->
  sampler_exit_ok s'.
Proof.
  intros Hok Hstep.
  destruct l as [scope | | call | who | who | who | | |]; simpl in Hstep.
  - destruct (decide (scope = cancel c)); [discriminate |].
    injection Hstep as <-.
    eapply sampler_exit_ok_frame; [exact Hok | reflexivity | simpl; set_solver].
  - injection Hstep as <-. by eapply sampler_exit_ok_frame.
  - unfold Close_step in Hstep.
    destruct (s_calls s !! call) as [[| | | err] |]; try discriminate.
    + injection Hstep as <-.
      eapply sampler_exit_ok_frame; [exact Hok | reflexivity | simpl; set_solver].
    + destruct (decide (s_wg s = 0)); [| discriminate].
      injection Hstep as <-. by eapply sampler_exit_ok_frame.
    + injection Hstep as <-. by eapply sampler_exit_ok_frame.
  - unfold manager_step in Hstep.
    destruct (manager who s) as [[| |] |]; try discriminate.
    injection Hstep as <-. by eapply sampler_exit_ok_frame.
  - unfold manager_step in Hstep.
    destruct (manager who s) as [[| |] |]; try discriminate.
    destruct (ctx_done (s_cancelled s) (ctx c)); [| discriminate].
    injection Hstep as <-. by eapply sampler_exit_ok_frame.
  - unfold manager_step in Hstep.
    destruct (manager who s) as [[| |] |]; try discriminate.
    unfold wg_Done in Hstep. destruct (s_wg s - 1 <? 0); [discriminate |].
    injection Hstep as <-. by eapply sampler_exit_ok_frame.
  - unfold sampler_step in Hstep.
    destruct (s_sampler s) as [smp |] eqn:Hsmp; [| discriminate].
    destruct (smp_pc smp); try discriminate. injection Hstep as <-.
    intros smp' Hs Hpc. simpl in Hs. rewrite Hsmp in Hs.
    injection Hs as <-. discriminate.
  - unfold sampler_step in Hstep.
    destruct (s_sampler s) as [smp |] eqn:Hsmp; [| discriminate].
    destruct (smp_pc smp); try discriminate. injection Hstep as <-.
    intros smp' Hs Hpc. simpl in Hs. rewrite Hsmp in Hs.
    injection Hs as <-. discriminate.
  - unfold sampler_step in Hstep.
    destruct (s_sampler s) as [smp |] eqn:Hsmp; [| discriminate].
    destruct (smp_pc smp); try discriminate.
    destruct (ctx_done (s_cancelled s) (smp_ctx smp)) eqn:Hdone;
      [| discriminate].
    injection Hstep as <-.
    intros smp' Hs Hpc. simpl in Hs. rewrite Hsmp in Hs.
    injection Hs as <-. exact Hdone.
Qed.

Lemma run_sampler_exit_ok (c : DefaultClient) (net : Net) (ls : list Label) :
  forall s s', sampler_exit_ok s -> run c net ls s = Some (Ok s') ->
               sampler_exit_ok s'.
Proof.
  induction ls as [| l ls IH]; intros s s' Hok Hrun; simpl in Hrun.
  - by injection Hrun as <-.
  - destruct (step c net l s) as [[s1 | p] |] eqn:Hstep; try discriminate.
    eapply IH; [| exact Hrun]. by eapply step_sampler_exit_ok.
Qed.

(** X8. The sampler returns only after the client's context is done: in
    every run, a sampler that has returned finds the client's context
    cancelled, by [Close] or through the context handed to the constructor;
    while neither has happened it is still sampling. *)
Theorem X8_sampler_returns_after_cancellation (ctx0 : Ctx) (log : Logger)
    (extractor : Ctx -> option RunParams) (w w' : World) (c : DefaultClient)
    (net : Net) (cancelled : gset nat) (ls : list Label) (s : Sys)
    (smp : Sampler) :
  newClient ctx0 log extractor w = (inl c, w') ->
  run c net ls (init_sys c (launched_between w w') cancelled) = Some (Ok s) ->
  s_sampler s = Some smp ->
  (smp_pc smp = SmpExited -> ctx_done (s_cancelled s) (ctx c) = true) /\
  (ctx_done (s_cancelled s) (ctx c) = false -> smp_pc smp <> SmpExited) /\
  smp_tick smp = 1 * Second /\
  smp_rclient smp = rclient c.
Proof.
  intros Hnew Hrun Hsmp.
  destruct (run_from_newClient _ _ _ _ _ _ net cancelled ls s Hnew Hrun)
    as (HInv & _ & _ & Hctx).
  assert (sampler_exit_ok s) as Hok.
  { eapply run_sampler_exit_ok; [| exact Hrun].
    intros smp0 Hs0 Hpc0. rewrite (newClient_init _ _ _ _ _ _ _ Hnew) in Hs0.
    simpl in Hs0. destruct (Enabled log DebugLevel); [| discriminate].
    injection Hs0 as <-. discriminate. }
  rewrite <- (Hctx smp Hsmp).
  pose proof (newClient_Inv _ _ _ _ _ _ net cancelled Hnew) as HInv0.
  destruct (run_Inv c net ls _ _ HInv0 Hrun)
    as (s' & [= <-] & _ & _ & _ & Hrc & Htick & _).
  rewrite (newClient_init _ _ _ _ _ _ _ Hnew), Hsmp in Hrc, Htick.
  simpl in Hrc, Htick.
  destruct (Enabled log DebugLevel); [| discriminate].
  injection Hrc as Hrc. injection Htick as Htick.
  split; [by apply Hok |].
  split; [| by split].
  intros Hnot Hpc. rewrite (Hok smp Hsmp Hpc) in Hnot. discriminate.
Qed.

Lemma X8_sampler_returns_after_cancellation_witness :
  exists s smp,
    run (sample_client verbose) net_up
      (close_once ++ [LSamplerDone])
      (init_sys (sample_client verbose)
         (launched_between w_other_port (w_started verbose)) ∅) = Some (Ok s) /\
    s_sampler s = Some smp /\
    smp_pc smp = SmpExited /\
    ctx_done (s_cancelled s) (ctx (sample_client verbose)) = true.
Proof.
  destruct (run (sample_client verbose) net_up (close_once ++ [LSamplerDone])
              (init_sys (sample_client verbose)
                 (launched_between w_other_port (w_started verbose)) ∅))
    as [[s | p] |] eqn:Hrun; try (vm_compute in Hrun; discriminate).
  destruct (s_sampler s) as [smp |] eqn:Hsmp;
    [| vm_compute in Hrun; injection Hrun as <-; discriminate].
  assert (smp_pc smp = SmpExited) as Hpc.
  { vm_compute in Hrun. injection Hrun as <-.
    simpl in Hsmp. injection Hsmp as <-. reflexivity. }
  exists s, smp. split; [reflexivity |]. split; [exact Hsmp |].
  split; [exact Hpc |].
  exact (proj1 (X8_sampler_returns_after_cancellation Background verbose
                  no_run w_other_port (w_started verbose)
                  (sample_client verbose) net_up ∅ _ s smp
                  (newClient_sample_run verbose) Hrun Hsmp) Hpc).
Defined.

Lemma run_app (c : DefaultClient) (net : Net) (l1 l2 : list Label) :
  forall s,
    run c net (l1 ++ l2) s =
    match run c net l1 s with
    | Some (Ok s1) => run c net l2 s1
    | other => other
    end.
Proof.
  induction l1 as [| l l1 IH]; intros s; simpl; [reflexivity |].
  destruct (step c net l s) as [[s1 | p] |]; [apply IH | reflexivity..].
Qed.

Lemma step_manager_done (c : DefaultClient) (net : Net) (who : Manager)
    (s : Sys) :
  manager who s = Some MgrRunning ->
  ctx_done (s_cancelled s) (ctx c) = true ->
  step c net (LManagerDone who) s = Some (Ok (set_manager who MgrStopping s)).
Proof.
  intros Hwho Hdone. cbn [step]. unfold manager_step. by rewrite Hwho, Hdone.
Qed.

Lemma step_manager_exit (c : DefaultClient) (net : Net) (who : Manager)
    (s s1 : Sys) :
  manager who s = Some MgrStopping ->
  wg_Done s = Ok s1 ->
  step c net (LManagerExit who) s =
    Some (Ok (record (ActWgDone who) (set_manager who MgrExited s1))).
Proof.
  intros Hwho Hwg. cbn [step]. unfold manager_step. by rewrite Hwho, Hwg.
Qed.

(** Once the client's context is done a manager can leave, whatever it is
    doing, and nothing but its own state and the counter changes. *)
Lemma drain_run (c : DefaultClient) (net : Net) (who : Manager) (s : Sys) :
  Inv c net s ->
  ctx_done (s_cancelled s) (ctx c) = true ->
  exists s',
    run c net (drain who s) s = Some (Ok s') /\
    Inv c net s' /\
    live (manager who s') = 0 /\
    (forall other, other <> who -> manager other s' = manager other s) /\
    s_calls s' = s_calls s /\
    s_cancelled s' = s_cancelled s.
Proof.
  intros HInv Hdone. unfold drain.
  destruct (manager who s) as [[| |] |] eqn:Hwho.
  - pose proof (Inv_manager_done c net s who HInv Hwho) as HInv1.
    assert (manager who (set_manager who MgrStopping s) = Some MgrStopping)
      as Hwho1 by (by destruct who).
    destruct (Inv_manager_exit c net _ who HInv1 Hwho1) as [Hwg HInv2].
    eexists. split.
    { cbn [run]. rewrite (step_manager_done c net who s Hwho Hdone).
      by rewrite (step_manager_exit c net who _ _ Hwho1 Hwg). }
    split; [exact HInv2 |]. split; [by destruct who |].
    split; [intros other Hother; by destruct who, other |].
    split; reflexivity.
  - destruct (Inv_manager_exit c net s who HInv Hwho) as [Hwg HInv1].
    eexists. split.
    { cbn [run]. by rewrite (step_manager_exit c net who _ _ Hwho Hwg). }
    split; [exact HInv1 |]. split; [by destruct who |].
    split; [intros other Hother; by destruct who, other |].
    split; reflexivity.
  - exists s. split; [reflexivity |]. split; [exact HInv |].
    split; [by rewrite Hwho |]. auto.
  - exists s. split; [reflexivity |]. split; [exact HInv |].
    split; [by rewrite Hwho |]. auto.
Qed.

Lemma drain_same (who : Manager) (s s' : Sys) :
  manager who s' = manager who s -> drain who s' = drain who s.
Proof. intros Heq. unfold drain. by rewrite Heq. Qed.

(** A call of [Close] that has cancelled gets to its return. *)
Lemma finish_from_cancelled (c : DefaultClient) (net : Net) (s : Sys)
    (call : nat) :
  Inv c net s ->
  ctx_done (s_cancelled s) (ctx c) = true ->
  s_calls s !! call = Some ClCancelled ->
  exists s' err,
    run c net (drain Barrier s ++ drain Subscription s ++
               [LClose call; LClose call]) s = Some (Ok s') /\
    s_calls s' !! call = Some (ClReturned err).
Proof.
  intros HInv Hdone Hcall.
  destruct (drain_run c net Barrier s HInv Hdone)
    as (s1 & Hrun1 & HInv1 & Hlive1 & Hother1 & Hcalls1 & Hcanc1).
  assert (ctx_done (s_cancelled s1) (ctx c) = true) as Hdone1
    by (by rewrite Hcanc1).
  destruct (drain_run c net Subscription s1 HInv1 Hdone1)
    as (s2 & Hrun2 & HInv2 & Hlive2 & Hother2 & Hcalls2 & Hcanc2).
  rewrite (drain_same Subscription s s1) in Hrun2
    by (by apply Hother1).
  assert (s_wg s2 = 0) as Hzero.
  { rewrite (inv_wg _ _ _ HInv2).
    change (s_barrier s2) with (manager Barrier s2).
    change (s_subscription s2) with (manager Subscription s2).
    rewrite Hlive2, (Hother2 Barrier) by discriminate. by rewrite Hlive1. }
  assert (s_calls s2 !! call = Some ClCancelled) as Hcall2
    by (by rewrite Hcalls2, Hcalls1).
  assert (call < length (s_calls s2))%nat as Hlen
    by (by eapply lookup_lt_Some).
  eexists _, _. split.
  - rewrite run_app, Hrun1, run_app, Hrun2. simpl.
    unfold Close_step at 1. rewrite Hcall2.
    destruct (decide (s_wg s2 = 0)) as [_ |]; [| contradiction].
    unfold Close_step. simpl.
    rewrite list_lookup_insert_eq by exact Hlen. reflexivity.
  - simpl. rewrite list_lookup_insert_eq; [reflexivity |].
    by rewrite length_insert.
Qed.

(** X10. [Close] cannot get stuck on the wait group: from every state a
    run reaches, every call of [Close] that has been entered can be taken
    to its return, by the moves [finish_close] lists: the call cancels, each
    manager (which leaves once the context is done, as the spec has it)
    signals the wait group, the counter reaches zero, the pool is closed. *)
Theorem X10_close_can_finish (ctx0 : Ctx) (log : Logger)
    (extractor : Ctx -> option RunParams) (w w' : World) (c : DefaultClient)
    (net : Net) (cancelled : gset nat) (ls : list Label) (s : Sys)
    (call : nat) :
  newClient ctx0 log extractor w = (inl c, w') ->
  run c net ls (init_sys c (launched_between w w') cancelled) = Some (Ok s) ->
  (call < length (s_calls s))%nat ->
  exists s' err,
    run c net (finish_close s call) s = Some (Ok s') /\
    s_calls s' !! call = Some (ClReturned err).
Proof.
  intros Hnew Hrun Hlen.
  destruct (run_from_newClient _ _ _ _ _ _ net cancelled ls s Hnew Hrun)
    as (HInv & _ & Hctx & _).
  assert (forall cs : gset nat, cancel c ∈ cs -> ctx_done cs (ctx c) = true)
    as Hdone.
  { intros cs Hin. rewrite Hctx. simpl. by rewrite bool_decide_eq_true_2. }
  destruct (lookup_lt_is_Some_2 _ _ Hlen) as [pc Hcall].
  unfold finish_close. rewrite Hcall. destruct pc as [| | | err].
  - pose proof (Inv_close_cancel c net s call HInv Hcall) as HInv1.
    set (s1 := record (ActCancel (cancel c))
                 (set_calls (<[call := ClCancelled]> (s_calls s))
                    (set_cancelled ({[cancel c]} ∪ s_cancelled s) s))) in *.
    assert (s_calls s1 !! call = Some ClCancelled) as Hcall1.
    { simpl. by rewrite list_lookup_insert_eq. }
    assert (ctx_done (s_cancelled s1) (ctx c) = true) as Hdone1.
    { apply Hdone. simpl. set_solver. }
    destruct (finish_from_cancelled c net s1 call HInv1 Hdone1 Hcall1)
      as (s' & err & Hrun' & Hret).
    exists s', err. split; [| exact Hret].
    rewrite run_app. simpl. unfold Close_step. rewrite Hcall. exact Hrun'.
  - destruct (inv_cancel _ _ _ HInv call _ Hcall) as [Hin _]; [discriminate |].
    by apply finish_from_cancelled; [| apply Hdone |].
  - eexists _, _. split.
    + simpl. unfold Close_step. rewrite Hcall. reflexivity.
    + simpl. by rewrite list_lookup_insert_eq.
  - exists s, err. split; [reflexivity | exact Hcall].
Qed.

Lemma X10_close_can_finish_witness :
  exists s s' err,
    run (sample_client quiet) net_up [LCallClose; LManagerCall Barrier]
      (init_sys (sample_client quiet)
         (launched_between w_other_port (w_started quiet)) ∅) = Some (Ok s) /\
    (0 < length (s_calls s))%nat /\
    run (sample_client quiet) net_up (finish_close s 0) s = Some (Ok s') /\
    s_calls s' !! 0%nat = Some (ClReturned err).
Proof.
  destruct (run (sample_client quiet) net_up [LCallClose; LManagerCall Barrier]
              (init_sys (sample_client quiet)
                 (launched_between w_other_port (w_started quiet)) ∅))
    as [[s | p] |] eqn:Hrun; try (vm_compute in Hrun; discriminate).
  assert (0 < length (s_calls s))%nat as Hlen.
  { vm_compute in Hrun. injection Hrun as <-. simpl. lia. }
  destruct (X10_close_can_finish Background quiet no_run w_other_port
              (w_started quiet) (sample_client quiet) net_up ∅ _ s 0%nat
              (newClient_sample_run quiet) Hrun Hlen)
    as (s' & err & Hfin & Hret).
  exists s, s', err. auto.
Defined.

(** ** More on the metric record *)

Section MetricsMore.

Variable float64 : Type.
Variable float64_of_int64 : Z -> float64.
Variable float64_const : Q -> float64.
Variable closure_i : Z -> Runtime.MetricType.

Abbreviation Metric' := (Runtime.Metric float64).
Abbreviation Pools' := (Runtime.Pools float64).
Abbreviation NewMetric' :=
  (Runtime.NewMetric float64 float64_of_int64 float64_const closure_i).
Abbreviation pool_Get' := (Runtime.pool_Get float64 closure_i).

Lemma index_Ok_lookup {A} (arr : list A) (i : Z) (x : A) :
  index arr i = Ok x -> arr !! Z.to_nat i = Some x.
Proof.
  unfold index. destruct ((i <? 0) || (Z.of_nat (length arr) <=? i));
    [discriminate |].
  destruct (arr !! Z.to_nat i); [by intros [= ->] | discriminate].
Qed.

Lemma pools_at_in_range (st : Pools') (t : Runtime.MetricType) :
  0 <= t < 7 -> Runtime.pools_at _ st t = Ok (st t).
Proof.
  intros Ht. unfold Runtime.pools_at, Runtime.pools_len.
  replace (t <? 0) with false by lia. by replace (7 <=? t) with false by lia.
Qed.

(** Running [NewMetric] on a record whose map is allocated. *)
Ltac fill_index p k :=
  let x := fresh "x" in
  let Hx := fresh "Hx" in
  destruct (index_in_range p k) as [x Hx];
  [ first [ rewrite Runtime.Histogram_Percentiles_length
          | rewrite Runtime.Timer_Percentiles_length ];
    rewrite (percentiles_length float64 float64_const); lia
  | rewrite Hx; apply index_Ok_lookup in Hx;
    (let n := eval vm_compute in (Z.to_nat k) in
     change (Z.to_nat k) with n in Hx);
    cbn [mbind mret result_bind result_ret rbind Runtime.set_measure
           Runtime.Measures Runtime.Timestamp Runtime.Type_ Runtime.Name] ].

Ltac fill_record Hget Hms :=
  unfold Runtime.NewMetric, Runtime.pools_Get;
  rewrite pools_at_in_range
    by (unfold Runtime.MetricPoint, Runtime.MetricCounter, Runtime.MetricEWMA,
          Runtime.MetricGauge, Runtime.MetricHistogram, Runtime.MetricMeter,
          Runtime.MetricTimer; lia);
  cbn [mbind mret result_bind result_ret rbind];
  match type of Hget with
  | Runtime.pool_Get _ _ _ _ _ = (?m0, _) =>
      destruct m0 as [ts0 ty0 nm0 meas0]; cbn [Runtime.Measures] in Hms;
      subst meas0
  end;
  rewrite Hget;
  cbn [mbind mret result_bind result_ret rbind Runtime.set_measure
         Runtime.Measures Runtime.Timestamp Runtime.Type_ Runtime.Name];
  try match goal with
    | |- context [index ?p 0] =>
        fill_index p 0; fill_index p 1; fill_index p 2;
        fill_index p 3; fill_index p 4; fill_index p 5
    end.

Lemma NewMetric_pools (st : Pools') (pick : option nat) (now : Z)
    (name : string) (i : Runtime.iface float64) (t : Runtime.MetricType)
    (m0 : Metric') (p' : list Metric') (ms0 : gmap string (Runtime.measure float64)) :
  Runtime.kind_of _ i = Some t ->
  pool_Get' t (st t) pick = (m0, p') ->
  Runtime.Measures _ m0 = Some ms0 ->
  exists ms,
    NewMetric' st pick now name i =
      Ok ({| Runtime.Timestamp := now; Runtime.Type_ := t;
             Runtime.Name := name; Runtime.Measures := Some ms |},
          Runtime.pools_set _ st t p') /\
    dom ms = dom ms0 ∪ list_to_set (Runtime.measure_keys t) /\
    (forall k, k ∉ Runtime.measure_keys t -> ms !! k = ms0 !! k).
Proof.
  intros Hk Hget Hms.
  destruct i as [| v | v | v | v | v | v | v | ty]; simpl in Hk;
    try discriminate; injection Hk as <-;
    fill_record Hget Hms;
    (eexists; split; [reflexivity |]; split;
     [ rewrite !dom_insert_L; apply set_eq; intros k;
       match goal with
       | |- context [Runtime.measure_keys ?t] =>
           let ks := eval vm_compute in (Runtime.measure_keys t) in
           change (Runtime.measure_keys t) with ks
       end;
       rewrite ?elem_of_union, ?elem_of_singleton, elem_of_list_to_set,
         ?elem_of_cons, ?elem_of_nil; tauto
     | intros k Hk;
       repeat (rewrite lookup_insert_ne;
               [| intros <-; apply Hk, list_elem_of_In; simpl; tauto]);
       reflexivity ]).
Qed.

Lemma kind_of_in_range (i : Runtime.iface float64) (t : Runtime.MetricType) :
  Runtime.kind_of _ i = Some t -> 0 <= t < 7.
Proof. destruct i; simpl; intros [= <-]; by compute. Qed.

(** X11. A record [NewMetric] returned can always be released, and goes
    back to the pool it was taken from: [Release] does not panic on it, puts
    it on top of the pool of its kind and touches no other pool, the pools
    keep their invariant, and taking the top record of that pool again
    gives the same record and the pools as [NewMetric] left them. *)
Theorem X11_release_round_trip (st : Pools') (pick : option nat) (now : Z)
    (name : string) (i : Runtime.iface float64) (t : Runtime.MetricType) :
  Runtime.kind_of _ i = Some t ->
  Runtime.pools_ok _ st ->
  exists m st1 st2,
    NewMetric' st pick now name i = Ok (m, st1) /\
    Runtime.Release _ st1 m = Ok st2 /\
    Runtime.pools_ok _ st2 /\
    st1 t = snd (pool_Get' t (st t) pick) /\
    st2 t = m :: st1 t /\
    (forall k, k <> t -> st1 k = st k /\ st2 k = st k) /\
    pool_Get' t (st2 t) (Some 0%nat) = (m, st1 t).
Proof.
  intros Hk Hst. pose proof (kind_of_in_range i t Hk) as Ht.
  destruct (pool_Get' t (st t) pick) as [m0 p'] eqn:Hget.
  destruct (pool_Get_allocated _ closure_i st t pick m0 p' Hst Hget)
    as [Hm0 Hp'].
  destruct (Runtime.Measures _ m0) as [ms0 |] eqn:Hms0; [| contradiction].
  destruct (NewMetric_pools st pick now name i t m0 p' ms0 Hk Hget Hms0)
    as (ms & Hrun & _).
  eexists _, _, _. split; [exact Hrun |].
  unfold Runtime.Release. cbn [Runtime.Type_].
  rewrite pools_at_in_range by exact Ht.
  cbn [mbind mret result_bind result_ret rbind].
  split; [reflexivity |].
  assert (Runtime.pools_set _ st t p' t = p') as Hat.
  { unfold Runtime.pools_set. by rewrite decide_True. }
  split.
  { apply pools_set_ok; [by apply pools_set_ok |].
    rewrite Hat. intros m' [-> | Hin]%elem_of_cons; [discriminate | by apply Hp']. }
  split; [exact Hat |]. split.
  { unfold Runtime.pools_set. rewrite !decide_True by reflexivity.
    reflexivity. }
  split.
  { intros k Hne. unfold Runtime.pools_set. by rewrite !decide_False. }
  unfold Runtime.pools_set. rewrite !decide_True by reflexivity. reflexivity.
Qed.

(** X12. [NewMetric] writes the keys of the argument's kind and clears
    nothing: the map of the record it returns holds the keys the pooled
    record came with and the keys of the kind, and every entry under
    another key is as it was.  On a record fresh from [New] the keys are
    exactly those of the kind. *)
Theorem X12_measure_keys (st : Pools') (pick : option nat) (now : Z)
    (name : string) (i : Runtime.iface float64) (t : Runtime.MetricType)
    (ms0 : gmap string (Runtime.measure float64)) :
  Runtime.kind_of _ i = Some t ->
  Runtime.Measures _ (fst (pool_Get' t (st t) pick)) = Some ms0 ->
  exists m st' ms,
    NewMetric' st pick now name i = Ok (m, st') /\
    Runtime.Measures _ m = Some ms /\
    dom ms = dom ms0 ∪ list_to_set (Runtime.measure_keys t) /\
    (forall k, k ∉ Runtime.measure_keys t -> ms !! k = ms0 !! k) /\
    (pick = None -> dom ms = list_to_set (Runtime.measure_keys t)).
Proof.
  intros Hk Hms0.
  destruct (pool_Get' t (st t) pick) as [m0 p'] eqn:Hget. simpl in Hms0.
  destruct (NewMetric_pools st pick now name i t m0 p' ms0 Hk Hget Hms0)
    as (ms & Hrun & Hdom & Hkeep).
  eexists _, _, ms. split; [exact Hrun |]. split; [reflexivity |].
  split; [exact Hdom |]. split; [exact Hkeep |].
  intros ->. simpl in Hget. injection Hget as <- _. simpl in Hms0.
  injection Hms0 as <-. rewrite Hdom, dom_empty_L. by rewrite (left_id_L ∅ (∪)).
Qed.


(** X14. When the record the pool hands out has a nil map, [NewMetric]
    panics on its first write, for every recognized kind: nothing in
    [NewMetric] or [Release] allocates the map of a pooled record. *)
Theorem X14_nil_map_panics (st : Pools') (pick : option nat) (now : Z)
    (name : string) (i : Runtime.iface float64) (t : Runtime.MetricType) :
  Runtime.kind_of _ i = Some t ->
  Runtime.Measures _ (fst (pool_Get' t (st t) pick)) = None ->
  NewMetric' st pick now name i = Panic PanicNilMap.
Proof.
  intros Hk Hnil.
  destruct (pool_Get' t (st t) pick) as [[ts0 ty0 nm0 meas0] p'] eqn:Hget.
  simpl in Hnil. subst meas0.
  destruct i as [| v | v | v | v | v | v | v | ty]; simpl in Hk;
    try discriminate; injection Hk as <-;
    unfold Runtime.NewMetric, Runtime.pools_Get;
    rewrite pools_at_in_range by (by compute);
    cbn [mbind mret result_bind result_ret rbind];
    rewrite Hget; reflexivity.
Qed.

End MetricsMore.

Lemma X11_release_round_trip_witness :
  Runtime.pools_ok Z (Runtime.pools_init Z) /\
  exists m st1 st2,
    Runtime.NewMetric Z (fun n => n) (fun _ => 0) (fun k => k)
      (Runtime.pools_init Z) None 1582230020 "requests"
      (Runtime.ICounter Z
         {| Runtime.Counter_Snapshot := {| Runtime.Counter_Count := 3 |} |})
    = Ok (m, st1) /\
    Runtime.Release Z st1 m = Ok st2 /\
    st2 Runtime.MetricCounter = m :: st1 Runtime.MetricCounter.
Proof.
  split; [apply pools_init_ok |].
  destruct (X11_release_round_trip Z (fun n => n) (fun _ => 0) (fun k => k)
              (Runtime.pools_init Z) None 1582230020 "requests"
              (Runtime.ICounter Z
                 {| Runtime.Counter_Snapshot := {| Runtime.Counter_Count := 3 |} |})
              Runtime.MetricCounter eq_refl (pools_init_ok Z))
    as (m & st1 & st2 & Hnew & Hrel & _ & _ & Htop & _).
  exists m, st1, st2. auto.
Defined.

Lemma X12_measure_keys_witness :
  exists m st' ms,
    Runtime.NewMetric Z (fun n => n) (fun _ => 0) (fun k => k)
      (Runtime.pools_init Z) None 1582230020 "throughput"
      (Runtime.IMeter Z
         {| Runtime.Meter_Snapshot :=
              {| Runtime.Meter_Count := 3; Runtime.Meter_Rate1 := 1;
                 Runtime.Meter_Rate5 := 2; Runtime.Meter_Rate15 := 3;
                 Runtime.Meter_RateMean := 4 |} |})
    = Ok (m, st') /\
    Runtime.Measures Z m = Some ms /\
    dom ms = list_to_set ["count"; "m1"; "m5"; "m15"; "mean"]%string.
Proof.
  destruct (X12_measure_keys Z (fun n => n) (fun _ => 0) (fun k => k)
              (Runtime.pools_init Z) None 1582230020 "throughput"
              (Runtime.IMeter Z
                 {| Runtime.Meter_Snapshot :=
                      {| Runtime.Meter_Count := 3; Runtime.Meter_Rate1 := 1;
                         Runtime.Meter_Rate5 := 2; Runtime.Meter_Rate15 := 3;
                         Runtime.Meter_RateMean := 4 |} |})
              Runtime.MetricMeter ∅ eq_refl eq_refl)
    as (m & st' & ms & Hnew & Hms & _ & _ & Hfresh).
  exists m, st', ms. split; [exact Hnew |]. split; [exact Hms |].
  exact (Hfresh eq_refl).
Defined.


Lemma X14_nil_map_panics_witness :
  let stale := {| Runtime.Timestamp := 0; Runtime.Type_ := Runtime.MetricPoint;
                  Runtime.Name := ""; Runtime.Measures := None |} in
  let st := Runtime.pools_set Z (Runtime.pools_init Z) Runtime.MetricPoint
              [stale] in
  Runtime.Release Z (Runtime.pools_init Z) stale = Ok st /\
  Runtime.NewMetric Z (fun n => n) (fun _ => 0) (fun k => k) st (Some 0%nat)
    1582230020 "latency" (Runtime.IPoint Z 7) = Panic PanicNilMap.
Proof.
  intros stale st. split; [reflexivity |].
  exact (X14_nil_map_panics Z (fun n => n) (fun _ => 0) (fun k => k) st
           (Some 0%nat) 1582230020 "latency" (Runtime.IPoint Z 7)
           Runtime.MetricPoint eq_refl eq_refl).
Defined.
